(** * Foundry: repository provisioning and productionalization

    A shallow embedding of the parts of the Foundry GitHub action that its
    specification makes claims about:

    - the case normalizer [toUpperSnakeCase] (src/util/caseConverter.ts),
    - the branch protection preset catalog
      (src/constants/branchProtectionPresets.ts), over a store of
      JavaScript objects so that sharing between a template and its copies
      is visible,
    - the secret sealer [encryptSecret] (src/util/secretEncryption.ts),
    - the productionalization orchestrator [productionalizeRepository]
      (src/api/services/productionalizationService.ts),
    - the top-level runner [getInitializer] and [run] (src/main.ts).

    JavaScript exceptions are values threaded through a state-and-exception
    monad: values of type [Error] where the code throws [Error]s only, any
    thrown value where a [catch] clause tells the two apart.  A rejected
    promise and a thrown exception are the same thing here, since every
    asynchronous call of the program is awaited before the next statement
    runs. *)

From stdpp Require Import base option list gmap strings pretty.
From Stdlib Require Import ZArith Ascii String.

Open Scope string_scope.

(** ** Exceptions and state *)

(** A JavaScript [Error]: its [message], and whether the remote platform
    reported that the entity to create already exists. *)
Record Error := mkError { message : string; alreadyExists : bool }.

Definition TypeError (msg : string) : Error := mkError msg false.

(** [Throws E S A]: a computation over a state [S] that returns an [A] or
    throws a value of type [E].  The state reached so far survives a throw,
    as in JavaScript. *)
Definition Throws (E S A : Type) : Type := S -> (E + A) * S.

(** [M S A]: what is thrown is an [Error]. *)
Definition M (S A : Type) : Type := Throws Error S A.

Definition ret {E S A} (a : A) : Throws E S A := fun s => (inr a, s).

Definition throw {E S A} (e : E) : Throws E S A := fun s => (inl e, s).

Definition bind {E S A B} (m : Throws E S A) (k : A -> Throws E S B) : Throws E S B :=
  fun s =>
    match m s with
    | (inr a, s') => k a s'
    | (inl e, s') => (inl e, s')
    end.

(** [try { body } catch (e) { handler e }] *)
Definition tryCatch {E S A} (body : Throws E S A) (handler : E -> Throws E S A)
    : Throws E S A :=
  fun s =>
    match body s with
    | (inr a, s') => (inr a, s')
    | (inl e, s') => handler e s'
    end.

Definition gets {E S A} (f : S -> A) : Throws E S A := fun s => (inr (f s), s).

Definition modify {E S} (f : S -> S) : Throws E S unit := fun s => (inr tt, f s).

Notation "'let*' x ':=' m 'in' k" := (bind m (fun x => k))
  (at level 10, x name, m at level 100, k at level 200).
Notation "'do' m 'in' k" := (bind m (fun _ => k))
  (at level 10, m at level 100, k at level 200).

(** ** Case normalizer *)

Module CaseConverter.

Definition isUpper (c : ascii) : bool :=
  let n := nat_of_ascii c in (65 <=? n)%nat && (n <=? 90)%nat.

Definition isLower (c : ascii) : bool :=
  let n := nat_of_ascii c in (97 <=? n)%nat && (n <=? 122)%nat.

Definition isDigit (c : ascii) : bool :=
  let n := nat_of_ascii c in (48 <=? n)%nat && (n <=? 57)%nat.

(** An existing separator of the input: [-] or [_]. *)
Definition isSeparator (c : ascii) : bool :=
  Ascii.eqb c "-"%char || Ascii.eqb c "_"%char.

Definition toUpperChar (c : ascii) : ascii :=
  if isLower c then ascii_of_nat (nat_of_ascii c - 32) else c.

(** Is there a word boundary between [c1] and the first character of
    [rest]?  Lower-to-upper transition, transition from a digit to an
    uppercase letter, or the acronym boundary: [c1] and the next character
    are uppercase and the one after is lowercase. *)
Definition isBoundary (c1 : ascii) (rest : string) : bool :=
  match rest with
  | EmptyString => false
  | String c2 rest' =>
      (isLower c1 && isUpper c2)
      || (isDigit c1 && isUpper c2)
      || (isUpper c1 && isUpper c2 &&
          match rest' with
          | String c3 _ => isLower c3
          | EmptyString => false
          end)
  end.

Fixpoint insertSeparators (s : string) : string :=
  match s with
  | EmptyString => EmptyString
  | String c1 rest =>
      String c1 (if isBoundary c1 rest
                 then String "_" (insertSeparators rest)
                 else insertSeparators rest)
  end.

(** Existing [-] and [_] become the separator, a run of them becomes one. *)
Fixpoint collapseSeparators (s : string) : string :=
  match s with
  | EmptyString => EmptyString
  | String c rest =>
      if isSeparator c then
        match rest with
        | String c2 _ =>
            if isSeparator c2 then collapseSeparators rest
            else String "_" (collapseSeparators rest)
        | EmptyString => String "_" EmptyString
        end
      else String c (collapseSeparators rest)
  end.

Fixpoint toUpperCase (s : string) : string :=
  match s with
  | EmptyString => EmptyString
  | String c rest => String (toUpperChar c) (toUpperCase rest)
  end.

(** Modelled from the spec: src/util/caseConverter.ts is missing (only its
    test file and its callers are there).  The definition follows the
    algorithm of the specification's section 4.2 step by step: insert a
    separator at the word boundaries, replace existing [-] and [_] by the
    separator, collapse repeated separators, uppercase the result.  The
    specification's rule for digits, a separator at every letter-to-digit
    transition, is the one rule the test file contradicts:
    [toUpperSnakeCase('value123Name')] is ['VALUE123_NAME'] there, without a
    separator between [e] and [1] and with one between [3] and [N].  The
    rule is replaced by what this expectation shows, a separator between a
    digit and the uppercase letter after it.  No other test has a digit,
    so that what the normalizer does at a digit anywhere else is not known
    from the repository. *)
Definition toUpperSnakeCase (s : string) : string :=
  toUpperCase (collapseSeparators (insertSeparators s)).

(** The expectations of src/util/__tests__/caseConverter.test.ts, as pairs
    of input and expected output. *)
Definition caseConverterTests : list (string * string) :=
  [ ("myVariableName", "MY_VARIABLE_NAME");
    ("value123Name", "VALUE123_NAME");
    ("variable", "VARIABLE");
    ("MyVariableName", "MY_VARIABLE_NAME");
    ("APIKey", "API_KEY");
    ("awsAccountId", "AWS_ACCOUNT_ID");
    ("HTTPSConnection", "HTTPS_CONNECTION");
    ("clusterNameEast", "CLUSTER_NAME_EAST");
    ("nodeEnvProduction", "NODE_ENV_PRODUCTION");
    ("ALREADY_UPPER", "ALREADY_UPPER");
    ("", "");
    ("a", "A");
    ("A", "A") ].

End CaseConverter.

(** ** A store of JavaScript objects *)

Module JsHeap.

Definition loc := nat.

(** JavaScript values: primitives, and references to objects and arrays. *)
Inductive val :=
  | VUndefined
  | VBool (b : bool)
  | VNum (n : Z)
  | VStr (s : string)
  | VRef (l : loc).

Inductive cell :=
  | CObject (props : gmap string val)
  | CArray (elems : list val).

(** [next] is the first location that has never been allocated. *)
Record heap := Heap { cells : gmap nat cell; next : nat }.

Definition emptyHeap : heap := Heap ∅ 0.

Definition alloc (c : cell) : M heap val :=
  fun h => (inr (VRef (next h)), Heap (<[next h := c]> (cells h)) (S (next h))).

(** An object literal [{k1: v1, ...}] and an array literal [[v1, ...]]. *)
Definition newObject (props : list (string * val)) : M heap val :=
  alloc (CObject (list_to_map props)).

Definition newArray (elems : list val) : M heap val := alloc (CArray elems).

(** [v.k] and [v[k]]: [undefined] for a missing property, a [TypeError]
    when [v] is not an object. *)
Definition getProp (v : val) (k : string) : M heap val :=
  fun h =>
    match v with
    | VRef l =>
        match cells h !! l with
        | Some (CObject props) => (inr (default VUndefined (props !! k)), h)
        | _ => (inl (TypeError ("Cannot read properties (reading '" +:+ k +:+ "')")), h)
        end
    | _ => (inl (TypeError ("Cannot read properties (reading '" +:+ k +:+ "')")), h)
    end.

(** [v.k = x]: updates the object [v] refers to, in place. *)
Definition setProp (v : val) (k : string) (x : val) : M heap unit :=
  fun h =>
    match v with
    | VRef l =>
        match cells h !! l with
        | Some (CObject props) =>
            (inr tt, Heap (<[l := CObject (<[k := x]> props)]> (cells h)) (next h))
        | _ => (inl (TypeError ("Cannot set properties (setting '" +:+ k +:+ "')")), h)
        end
    | _ => (inl (TypeError ("Cannot set properties (setting '" +:+ k +:+ "')")), h)
    end.

(** [{...v}]: a new object with the own properties of [v]; property values
    that are references are copied as references (a shallow copy).
    Spreading a primitive gives an empty object. *)
Definition spread (v : val) : M heap val :=
  fun h =>
    match v with
    | VRef l =>
        match cells h !! l with
        | Some (CObject props) => alloc (CObject props) h
        | Some (CArray elems) =>
            alloc (CObject (list_to_map (imap (fun i x => (pretty i, x)) elems))) h
        | None => alloc (CObject ∅) h
        end
    | _ => alloc (CObject ∅) h
    end.

End JsHeap.

(** ** Branch protection presets *)

Module BranchProtectionPresets.
Import JsHeap.

(** [BranchProtectionPreset] of src/api/types/productionalization.ts. *)
Inductive BranchProtectionPreset := strict | moderate | minimal.

Definition presetKey (p : BranchProtectionPreset) : string :=
  match p with
  | strict => "strict"
  | moderate => "moderate"
  | minimal => "minimal"
  end.

(** The object literal of one preset; the inner literals are evaluated,
    and so allocated, before the objects that hold them. *)
Definition protectionLiteral (name : string)
    (dismiss_stale_reviews_on_push require_last_push_approval : bool)
    (required_approving_review_count : Z)
    (required_review_thread_resolution : bool) : M heap val :=
  let* include := newArray [] in
  let* exclude := newArray [] in
  let* ref_name := newObject [("include", include); ("exclude", exclude)] in
  let* conditions := newObject [("ref_name", ref_name)] in
  let* parameters :=
    newObject
      [("dismiss_stale_reviews_on_push", VBool dismiss_stale_reviews_on_push);
       ("require_code_owner_review", VBool false);
       ("require_last_push_approval", VBool require_last_push_approval);
       ("required_approving_review_count", VNum required_approving_review_count);
       ("required_review_thread_resolution", VBool required_review_thread_resolution)] in
  let* pull_request :=
    newObject [("type", VStr "pull_request"); ("parameters", parameters)] in
  let* non_fast_forward := newObject [("type", VStr "non_fast_forward")] in
  let* rules := newArray [pull_request; non_fast_forward] in
  newObject
    [("name", VStr name);
     ("target", VStr "branch");
     ("enforcement", VStr "active");
     ("conditions", conditions);
     ("rules", rules)].

Definition strictProtection : M heap val :=
  protectionLiteral "Branch protection rules (strict)" true true 2 true.

Definition moderateProtection : M heap val :=
  protectionLiteral "Branch protection rules (moderate)" true true 1 true.

Definition minimalProtection : M heap val :=
  protectionLiteral "Branch protection rules (minimal)" false false 1 false.

(** Evaluation of the module: the three templates, then the catalog that
    maps the preset names to them. *)
Definition loadModule : M heap val :=
  let* strictProtection := strictProtection in
  let* moderateProtection := moderateProtection in
  let* minimalProtection := minimalProtection in
  newObject
    [("strict", strictProtection);
     ("moderate", moderateProtection);
     ("minimal", minimalProtection)].

(** The store once the module is loaded. *)
Definition initialHeap : heap := snd (loadModule emptyHeap).

Definition BRANCH_PROTECTION_PRESETS : val :=
  match fst (loadModule emptyHeap) with
  | inr v => v
  | inl _ => VUndefined
  end.

(** [getBranchProtectionPreset(preset, targetBranch = 'master')] *)
Definition getBranchProtectionPreset (preset : BranchProtectionPreset)
    (targetBranch : option string) : M heap val :=
  let targetBranch := default "master" targetBranch in
  let* template := getProp BRANCH_PROTECTION_PRESETS (presetKey preset) in
  let* config := spread template in
  let* conditions := getProp config "conditions" in
  let* ref_name := getProp conditions "ref_name" in
  let* include := newArray [VStr ("refs/heads/" +:+ targetBranch)] in
  do setProp ref_name "include" include in
  ret config.

(** *** Reading a ruleset out of the store

    The document a reference stands for, nested objects followed: what a
    reader of the object sees, and what is sent when the object is
    serialized into a request. *)

Record RefName := { include : list string; exclude : list string }.

Record Conditions := { ref_name : RefName }.

Record Rule := { rule_type : string; parameters : option (gmap string val) }.

Record BranchProtectionRuleset := {
  name : string;
  target : string;
  enforcement : string;
  conditions : Conditions;
  rules : list Rule
}.

Definition readObject (h : heap) (v : val) : option (gmap string val) :=
  match v with
  | VRef l =>
      match cells h !! l with
      | Some (CObject props) => Some props
      | _ => None
      end
  | _ => None
  end.

Definition readArray (h : heap) (v : val) : option (list val) :=
  match v with
  | VRef l =>
      match cells h !! l with
      | Some (CArray elems) => Some elems
      | _ => None
      end
  | _ => None
  end.

Definition readString (v : val) : option string :=
  match v with
  | VStr s => Some s
  | _ => None
  end.

Definition readStrings (h : heap) (v : val) : option (list string) :=
  elems ← readArray h v; mapM readString elems.

Definition readRule (h : heap) (v : val) : option Rule :=
  props ← readObject h v;
  type ← props !! "type" ≫= readString;
  match props !! "parameters" with
  | None | Some VUndefined => Some {| rule_type := type; parameters := None |}
  | Some p =>
      params ← readObject h p;
      Some {| rule_type := type; parameters := Some params |}
  end.

Definition readRefName (h : heap) (v : val) : option RefName :=
  props ← readObject h v;
  inc ← props !! "include" ≫= readStrings h;
  exc ← props !! "exclude" ≫= readStrings h;
  Some {| include := inc; exclude := exc |}.

Definition readConditions (h : heap) (v : val) : option Conditions :=
  props ← readObject h v;
  rn ← props !! "ref_name" ≫= readRefName h;
  Some {| ref_name := rn |}.

Definition readRuleset (h : heap) (v : val) : option BranchProtectionRuleset :=
  props ← readObject h v;
  n ← props !! "name" ≫= readString;
  t ← props !! "target" ≫= readString;
  e ← props !! "enforcement" ≫= readString;
  c ← props !! "conditions" ≫= readConditions h;
  elems ← props !! "rules" ≫= readArray h;
  rs ← mapM (readRule h) elems;
  Some {| name := n; target := t; enforcement := e; conditions := c; rules := rs |}.

(** The template of a preset, as the catalog holds it in store [h]. *)
Definition readPreset (h : heap) (p : BranchProtectionPreset)
    : option BranchProtectionRuleset :=
  props ← readObject h BRANCH_PROTECTION_PRESETS;
  props !! presetKey p ≫= readRuleset h.

(** The stores the program can be in: the one the module load leaves, and
    those any number of calls of [getBranchProtectionPreset] lead to. *)
Inductive reachable : heap -> Prop :=
  | reachable_load : reachable initialHeap
  | reachable_call h preset targetBranch r h' :
      reachable h ->
      getBranchProtectionPreset preset targetBranch h = (r, h') ->
      reachable h'.

(** The rule of a given type in a ruleset document. *)
Definition findRule (type : string) (rs : BranchProtectionRuleset) : option Rule :=
  List.find (fun r => String.eqb (rule_type r) type) (rules rs).

End BranchProtectionPresets.

(** ** Constants (src/constants/constants.ts) *)

Module Constants.

Definition APP_NAME : string := "foundry".
Definition DEFAULT_AUTO_INIT : bool := true.
Definition DEFAULT_PRIVATE : bool := false.
Definition DEFAULT_PRODUCTIONALIZE : bool := false.
Definition DEFAULT_BRANCH_PROTECTION_TARGET : string := "master".

End Constants.

(** ** Types of the productionalization pass
    (src/api/types/productionalization.ts, src/api/types/repository.ts)

    An optional field [f?: T] is an [option T].  Record fields share one name
    space here, so the fields of the small records carry a prefix. *)

Module Productionalization.
Export BranchProtectionPresets.

Inductive TeamPermission := pull | triage | push | maintain | admin.

Record TeamPermissionConfig := {
  teamSlug : string;
  permission : TeamPermission
}.

Inductive ReviewerType := User | Team.

Record EnvironmentReviewer := { type : ReviewerType; slug : string }.

Record EnvironmentConfig := {
  env_name : string;
  waitTimer : option Z;
  reviewers : option (list EnvironmentReviewer);
  preventSelfReview : option bool
}.

Record EnvironmentVariable := { var_name : string; var_value : string }.

Record EnvironmentVariables := {
  environmentName : string;
  variables : list EnvironmentVariable
}.

Record RepositorySecret := { secret_name : string; secret_value : string }.

Record ProductionalizationConfig := {
  cfg_teamPermissions : option (list TeamPermissionConfig);
  cfg_topics : option (list string);
  cfg_environments : option (list EnvironmentConfig);
  cfg_environmentVariables : option (list EnvironmentVariables);
  cfg_branchProtectionPreset : option BranchProtectionPreset;
  cfg_branchProtectionTargetBranch : option string;
  cfg_secrets : option (list RepositorySecret)
}.

(** The configuration [{}]. *)
Definition emptyConfig : ProductionalizationConfig :=
  {| cfg_teamPermissions := None;
     cfg_topics := None;
     cfg_environments := None;
     cfg_environmentVariables := None;
     cfg_branchProtectionPreset := None;
     cfg_branchProtectionTargetBranch := None;
     cfg_secrets := None |}.

Record TeamPermissionResult := {
  tpr_teamSlug : string;
  tpr_success : bool;
  tpr_error : option string
}.

Record EnvironmentCreationResult := {
  ecr_environment : string;
  ecr_success : bool;
  ecr_error : option string
}.

Record EnvironmentVariableResult := {
  evr_environment : string;
  evr_variable : string;
  evr_success : bool;
  evr_error : option string
}.

Record SecretCreationResult := {
  scr_secret : string;
  scr_success : bool;
  scr_error : option string
}.

Record ProductionalizationResult := {
  teamPermissions : list TeamPermissionResult;
  topicsAdded : bool;
  topicsError : option string;
  environmentsCreated : list string;
  environmentErrors : list EnvironmentCreationResult;
  variablesCreated : nat;
  variableErrors : list EnvironmentVariableResult;
  branchProtectionCreated : bool;
  branchProtectionError : option string;
  secretsCreated : nat;
  secretErrors : list SecretCreationResult
}.

(** [RepositoryInput] and [RepositoryResult] of the repository types. *)
Record RepositoryInput := {
  token : string;
  repo_name : string;
  description : string;
  private : bool;
  template : option string;
  organization : option string;
  autoInit : bool;
  gitignoreTemplate : option string;
  licenseTemplate : option string;
  defaultBranch : option string;
  productionalize : option bool;
  productionalizationConfig : option ProductionalizationConfig
}.

Record RepositoryResult := {
  id : Z;
  full_name : string;
  html_url : string
}.

End Productionalization.

(** ** Secret sealer (src/util/secretEncryption.ts) *)

Module SecretEncryption.

(** The part of libsodium the sealer uses.  A sealed box draws a fresh
    ephemeral key pair inside the primitive: [entropy] stands for what one
    call draws from the system's random source. *)
Class Sodium := {
  entropy : Type;
  from_string : string -> list Byte.byte;
  from_base64 : string -> Error + list Byte.byte;
  crypto_box_seal : list Byte.byte -> list Byte.byte -> entropy -> Error + list Byte.byte;
  to_base64 : list Byte.byte -> string
}.

(** [encryptSecret(publicKey, secretValue)], with the randomness the call
    draws made explicit. *)
Definition encryptSecret `{Sodium} (publicKey secretValue : string)
    (drawn : entropy) : Error + string :=
  let messageBytes := from_string secretValue in
  match from_base64 publicKey with
  | inl e => inl e
  | inr keyBytes =>
      match crypto_box_seal messageBytes keyBytes drawn with
      | inl e => inl e
      | inr encryptedBytes => inr (to_base64 encryptedBytes)
      end
  end.

End SecretEncryption.

(** ** Productionalization orchestrator *)

Module ProductionalizationService.
Import JsHeap CaseConverter SecretEncryption.
Export Productionalization.

(** One request to the remote platform, with its arguments. *)
Inductive Call :=
  | AddOrUpdateRepoPermissionsInOrg (org team_slug owner repo : string)
      (permission : TeamPermission)
  | GetAllTopics (owner repo : string)
  | ReplaceAllTopics (owner repo : string) (names : list string)
  | GetByName (org team_slug : string)
  | GetByUsername (username : string)
  | CreateOrUpdateEnvironment (owner repo environment_name : string)
      (wait_timer : option Z) (reviewers : option (list (ReviewerType * Z)))
      (prevent_self_review : option bool)
  | CreateEnvironmentVariable (owner repo environment_name name value : string)
  | UpdateEnvironmentVariable (owner repo environment_name name value : string)
  | GetRepoPublicKey (owner repo : string)
  | CreateOrUpdateRepoSecret (owner repo secret_name encrypted_value key_id : string)
  | CreateRepoRuleset (owner repo : string) (ruleset : BranchProtectionRuleset).

(** The remote capability: what the platform answers to a call, and the
    state it is left in.  [R] is the state of the platform, unknown to the
    orchestrator; an answer is a payload or a remote error. *)
Definition Answer (R A : Type) : Type := R -> (Error + A) * R.

Record Octokit (R : Type) := {
  addOrUpdateRepoPermissionsInOrg :
    string -> string -> string -> string -> TeamPermission -> Answer R unit;
  getAllTopics : string -> string -> Answer R (list string);
  replaceAllTopics : string -> string -> list string -> Answer R unit;
  getByName : string -> string -> Answer R Z;
  getByUsername : string -> Answer R Z;
  createOrUpdateEnvironment :
    string -> string -> string -> option Z -> option (list (ReviewerType * Z)) ->
    option bool -> Answer R unit;
  createEnvironmentVariable :
    string -> string -> string -> string -> string -> Answer R unit;
  updateEnvironmentVariable :
    string -> string -> string -> string -> string -> Answer R unit;
  getRepoPublicKey : string -> string -> Answer R (string * string);
  createOrUpdateRepoSecret :
    string -> string -> string -> string -> string -> Answer R unit;
  createRepoRuleset : string -> string -> BranchProtectionRuleset -> Answer R unit
}.

Arguments addOrUpdateRepoPermissionsInOrg {R}.
Arguments getAllTopics {R}.
Arguments replaceAllTopics {R}.
Arguments getByName {R}.
Arguments getByUsername {R}.
Arguments createOrUpdateEnvironment {R}.
Arguments createEnvironmentVariable {R}.
Arguments updateEnvironmentVariable {R}.
Arguments getRepoPublicKey {R}.
Arguments createOrUpdateRepoSecret {R}.
Arguments createRepoRuleset {R}.

(** What a run of the orchestrator acts on: the remote platform, the calls
    issued to it so far (oldest first), the store of JavaScript objects,
    and the number of draws made from the random source. *)
Record World (R : Type) := {
  platform : R;
  calls : list Call;
  store : heap;
  draws : nat
}.

Arguments platform {R}.
Arguments calls {R}.
Arguments store {R}.
Arguments draws {R}.

(** The result every run starts from. *)
Definition emptyResult : ProductionalizationResult :=
  {| teamPermissions := [];
     topicsAdded := false;
     topicsError := None;
     environmentsCreated := [];
     environmentErrors := [];
     variablesCreated := 0;
     variableErrors := [];
     branchProtectionCreated := false;
     branchProtectionError := None;
     secretsCreated := 0;
     secretErrors := [] |}.

(** Updates of one slot of the result. *)
Definition pushTeamPermission (x : TeamPermissionResult)
    (r : ProductionalizationResult) : ProductionalizationResult :=
  {| teamPermissions := teamPermissions r ++ [x];
     topicsAdded := topicsAdded r;
     topicsError := topicsError r;
     environmentsCreated := environmentsCreated r;
     environmentErrors := environmentErrors r;
     variablesCreated := variablesCreated r;
     variableErrors := variableErrors r;
     branchProtectionCreated := branchProtectionCreated r;
     branchProtectionError := branchProtectionError r;
     secretsCreated := secretsCreated r;
     secretErrors := secretErrors r |}.

Definition setTopics (added : bool) (error : option string)
    (r : ProductionalizationResult) : ProductionalizationResult :=
  {| teamPermissions := teamPermissions r;
     topicsAdded := added;
     topicsError := error;
     environmentsCreated := environmentsCreated r;
     environmentErrors := environmentErrors r;
     variablesCreated := variablesCreated r;
     variableErrors := variableErrors r;
     branchProtectionCreated := branchProtectionCreated r;
     branchProtectionError := branchProtectionError r;
     secretsCreated := secretsCreated r;
     secretErrors := secretErrors r |}.

Definition pushEnvironmentCreated (x : string)
    (r : ProductionalizationResult) : ProductionalizationResult :=
  {| teamPermissions := teamPermissions r;
     topicsAdded := topicsAdded r;
     topicsError := topicsError r;
     environmentsCreated := environmentsCreated r ++ [x];
     environmentErrors := environmentErrors r;
     variablesCreated := variablesCreated r;
     variableErrors := variableErrors r;
     branchProtectionCreated := branchProtectionCreated r;
     branchProtectionError := branchProtectionError r;
     secretsCreated := secretsCreated r;
     secretErrors := secretErrors r |}.

Definition pushEnvironmentError (x : EnvironmentCreationResult)
    (r : ProductionalizationResult) : ProductionalizationResult :=
  {| teamPermissions := teamPermissions r;
     topicsAdded := topicsAdded r;
     topicsError := topicsError r;
     environmentsCreated := environmentsCreated r;
     environmentErrors := environmentErrors r ++ [x];
     variablesCreated := variablesCreated r;
     variableErrors := variableErrors r;
     branchProtectionCreated := branchProtectionCreated r;
     branchProtectionError := branchProtectionError r;
     secretsCreated := secretsCreated r;
     secretErrors := secretErrors r |}.

Definition countVariable
    (r : ProductionalizationResult) : ProductionalizationResult :=
  {| teamPermissions := teamPermissions r;
     topicsAdded := topicsAdded r;
     topicsError := topicsError r;
     environmentsCreated := environmentsCreated r;
     environmentErrors := environmentErrors r;
     variablesCreated := S (variablesCreated r);
     variableErrors := variableErrors r;
     branchProtectionCreated := branchProtectionCreated r;
     branchProtectionError := branchProtectionError r;
     secretsCreated := secretsCreated r;
     secretErrors := secretErrors r |}.

Definition pushVariableError (x : EnvironmentVariableResult)
    (r : ProductionalizationResult) : ProductionalizationResult :=
  {| teamPermissions := teamPermissions r;
     topicsAdded := topicsAdded r;
     topicsError := topicsError r;
     environmentsCreated := environmentsCreated r;
     environmentErrors := environmentErrors r;
     variablesCreated := variablesCreated r;
     variableErrors := variableErrors r ++ [x];
     branchProtectionCreated := branchProtectionCreated r;
     branchProtectionError := branchProtectionError r;
     secretsCreated := secretsCreated r;
     secretErrors := secretErrors r |}.

Definition setBranchProtection (created : bool) (error : option string)
    (r : ProductionalizationResult) : ProductionalizationResult :=
  {| teamPermissions := teamPermissions r;
     topicsAdded := topicsAdded r;
     topicsError := topicsError r;
     environmentsCreated := environmentsCreated r;
     environmentErrors := environmentErrors r;
     variablesCreated := variablesCreated r;
     variableErrors := variableErrors r;
     branchProtectionCreated := created;
     branchProtectionError := error;
     secretsCreated := secretsCreated r;
     secretErrors := secretErrors r |}.

Definition countSecret
    (r : ProductionalizationResult) : ProductionalizationResult :=
  {| teamPermissions := teamPermissions r;
     topicsAdded := topicsAdded r;
     topicsError := topicsError r;
     environmentsCreated := environmentsCreated r;
     environmentErrors := environmentErrors r;
     variablesCreated := variablesCreated r;
     variableErrors := variableErrors r;
     branchProtectionCreated := branchProtectionCreated r;
     branchProtectionError := branchProtectionError r;
     secretsCreated := S (secretsCreated r);
     secretErrors := secretErrors r |}.

Definition pushSecretError (x : SecretCreationResult)
    (r : ProductionalizationResult) : ProductionalizationResult :=
  {| teamPermissions := teamPermissions r;
     topicsAdded := topicsAdded r;
     topicsError := topicsError r;
     environmentsCreated := environmentsCreated r;
     environmentErrors := environmentErrors r;
     variablesCreated := variablesCreated r;
     variableErrors := variableErrors r;
     branchProtectionCreated := branchProtectionCreated r;
     branchProtectionError := branchProtectionError r;
     secretsCreated := secretsCreated r;
     secretErrors := secretErrors r ++ [x] |}.

(** [for (const x of xs) { acc = body(x, acc) }] *)
Fixpoint forEach {S A B} (body : A -> B -> M S B) (xs : list A) (acc : B) : M S B :=
  match xs with
  | [] => ret acc
  | x :: rest => let* acc' := body x acc in forEach body rest acc'
  end.

(** Set union of two topic lists as [new Set([...a, ...b])] builds it:
    the first occurrence of each string is kept, comparison is
    case-sensitive. *)
Fixpoint dedupe (seen : list string) (xs : list string) : list string :=
  match xs with
  | [] => []
  | x :: rest =>
      if bool_decide (x ∈ seen) then dedupe seen rest
      else x :: dedupe (x :: seen) rest
  end.

Definition unionTopics (existing configured : list string) : list string :=
  dedupe [] (existing ++ configured).

Section Service.
Context {R : Type} (octokit : Octokit R).
Context `{sodium : Sodium} (random : nat -> entropy).

(** Issues a call: the platform answers and moves on, the call is
    recorded. *)
Definition invoke {A} (c : Call) (answer : Answer R A) : M (World R) A :=
  fun w =>
    let '(r, p) := answer (platform w) in
    (r, {| platform := p; calls := calls w ++ [c];
           store := store w; draws := draws w |}).

(** Runs a computation on the store of JavaScript objects. *)
Definition onStore {A} (m : M heap A) : M (World R) A :=
  fun w =>
    let '(r, h) := m (store w) in
    (r, {| platform := platform w; calls := calls w;
           store := h; draws := draws w |}).

(** Seals a value: one draw from the random source. *)
Definition seal (publicKey secretValue : string) : M (World R) string :=
  fun w =>
    (encryptSecret publicKey secretValue (random (draws w)),
     {| platform := platform w; calls := calls w;
        store := store w; draws := S (draws w) |}).

(** Modelled from the spec: productionalizationService.ts is missing;
    step 1 of section 4.6.  One team: the permission call, its outcome
    recorded whether it succeeds or fails. *)
Definition addTeamPermission (owner repo : string) (team : TeamPermissionConfig)
    (result : ProductionalizationResult) : M (World R) ProductionalizationResult :=
  tryCatch
    (do invoke
          (AddOrUpdateRepoPermissionsInOrg owner (teamSlug team) owner repo
             (permission team))
          (addOrUpdateRepoPermissionsInOrg octokit owner (teamSlug team) owner repo
             (permission team)) in
     ret (pushTeamPermission
            {| tpr_teamSlug := teamSlug team; tpr_success := true;
               tpr_error := None |} result))
    (fun error =>
       ret (pushTeamPermission
              {| tpr_teamSlug := teamSlug team; tpr_success := false;
                 tpr_error := Some (message error) |} result)).

(** Modelled from the spec: productionalizationService.ts is missing;
    step 2 of section 4.6.  Fetch the topics, replace them by the union
    with the configured ones; a failure of either call is recorded. *)
Definition addTopics (owner repo : string) (topics : list string)
    (result : ProductionalizationResult) : M (World R) ProductionalizationResult :=
  tryCatch
    (let* existing := invoke (GetAllTopics owner repo) (getAllTopics octokit owner repo) in
     let names := unionTopics existing topics in
     do invoke (ReplaceAllTopics owner repo names)
          (replaceAllTopics octokit owner repo names) in
     ret (setTopics true None result))
    (fun error => ret (setTopics false (Some (message error)) result)).

(** Modelled from the spec: productionalizationService.ts is missing;
    step 3 of section 4.6.  A reviewer's slug is resolved to the id of
    the team or of the user. *)
Definition resolveReviewer (owner : string) (reviewer : EnvironmentReviewer)
    : M (World R) (ReviewerType * Z) :=
  match type reviewer with
  | Team =>
      let* id := invoke (GetByName owner (slug reviewer))
                   (getByName octokit owner (slug reviewer)) in
      ret (Team, id)
  | User =>
      let* id := invoke (GetByUsername (slug reviewer))
                   (getByUsername octokit (slug reviewer)) in
      ret (User, id)
  end.

Fixpoint resolveReviewers (owner : string) (rs : list EnvironmentReviewer)
    : M (World R) (list (ReviewerType * Z)) :=
  match rs with
  | [] => ret []
  | r :: rest =>
      let* resolved := resolveReviewer owner r in
      let* others := resolveReviewers owner rest in
      ret (resolved :: others)
  end.

(** Modelled from the spec: productionalizationService.ts is missing;
    step 3 of section 4.6.  One environment: resolve its reviewers, then
    create it; a failure of any of these calls fails the environment. *)
Definition createEnvironment (owner repo : string) (env : EnvironmentConfig)
    (result : ProductionalizationResult) : M (World R) ProductionalizationResult :=
  tryCatch
    (let* resolved :=
       match reviewers env with
       | Some rs => let* ids := resolveReviewers owner rs in ret (Some ids)
       | None => ret None
       end in
     do invoke
          (CreateOrUpdateEnvironment owner repo (env_name env) (waitTimer env)
             resolved (preventSelfReview env))
          (createOrUpdateEnvironment octokit owner repo (env_name env)
             (waitTimer env) resolved (preventSelfReview env)) in
     ret (pushEnvironmentCreated (env_name env) result))
    (fun error =>
       ret (pushEnvironmentError
              {| ecr_environment := env_name env; ecr_success := false;
                 ecr_error := Some (message error) |} result)).

(** Modelled from the spec: productionalizationService.ts is missing;
    step 4 of section 4.6.  One variable: its name is normalized, the
    variable is created, or updated when the creation fails because it
    exists already; it is counted or its error is recorded. *)
Definition setEnvironmentVariable (owner repo environment : string)
    (v : EnvironmentVariable) (result : ProductionalizationResult)
    : M (World R) ProductionalizationResult :=
  let variable := toUpperSnakeCase (var_name v) in
  tryCatch
    (do tryCatch
          (invoke
             (CreateEnvironmentVariable owner repo environment variable (var_value v))
             (createEnvironmentVariable octokit owner repo environment variable
                (var_value v)))
          (fun error =>
             if alreadyExists error then
               invoke
                 (UpdateEnvironmentVariable owner repo environment variable
                    (var_value v))
                 (updateEnvironmentVariable octokit owner repo environment variable
                    (var_value v))
             else throw error) in
     ret (countVariable result))
    (fun error =>
       ret (pushVariableError
              {| evr_environment := environment; evr_variable := variable;
                 evr_success := false; evr_error := Some (message error) |}
              result)).

(** Modelled from the spec: productionalizationService.ts is missing;
    step 4 of section 4.6.  A block of variables is processed when its
    environment is one of the configured environments of the run,
    whether or not the creation of that environment succeeded. *)
Definition setEnvironmentVariables (owner repo : string)
    (configured : list string) (block : EnvironmentVariables)
    (result : ProductionalizationResult) : M (World R) ProductionalizationResult :=
  if bool_decide (environmentName block ∈ configured) then
    forEach (setEnvironmentVariable owner repo (environmentName block))
      (variables block) result
  else ret result.

(** Modelled from the spec: productionalizationService.ts is missing;
    step 5 of section 4.6.  The preset is resolved by the catalog, the
    document is sent in a create-ruleset call. *)
Definition applyBranchProtection (owner repo : string)
    (preset : BranchProtectionPreset) (targetBranch : option string)
    (result : ProductionalizationResult) : M (World R) ProductionalizationResult :=
  tryCatch
    (let* ruleset := onStore (getBranchProtectionPreset preset targetBranch) in
     let* document :=
       fun w =>
         match readRuleset (store w) ruleset with
         | Some document => (inr document, w)
         | None => (inl (TypeError "Converting ruleset to JSON"), w)
         end in
     do invoke (CreateRepoRuleset owner repo document)
          (createRepoRuleset octokit owner repo document) in
     ret (setBranchProtection true None result))
    (fun error => ret (setBranchProtection false (Some (message error)) result)).

(** Modelled from the spec: productionalizationService.ts is missing;
    step 6 of section 4.6.  One secret: sealed against the public key,
    then uploaded; it is counted or its error is recorded. *)
Definition createSecret (owner repo key_id key : string) (secret : RepositorySecret)
    (result : ProductionalizationResult) : M (World R) ProductionalizationResult :=
  tryCatch
    (let* encrypted := seal key (secret_value secret) in
     do invoke
          (CreateOrUpdateRepoSecret owner repo (secret_name secret) encrypted key_id)
          (createOrUpdateRepoSecret octokit owner repo (secret_name secret)
             encrypted key_id) in
     ret (countSecret result))
    (fun error =>
       ret (pushSecretError
              {| scr_secret := secret_name secret; scr_success := false;
                 scr_error := Some (message error) |} result)).

(** Modelled from the spec: productionalizationService.ts is missing;
    step 6 of section 4.6.  The public key is fetched once; when the
    fetch fails the stage is abandoned and nothing is recorded. *)
Definition createSecrets (owner repo : string) (secrets : list RepositorySecret)
    (result : ProductionalizationResult) : M (World R) ProductionalizationResult :=
  let* fetched :=
    tryCatch
      (let* publicKey := invoke (GetRepoPublicKey owner repo)
                           (getRepoPublicKey octokit owner repo) in
       ret (Some publicKey))
      (fun _ => ret None) in
  match fetched with
  | Some (key_id, key) => forEach (createSecret owner repo key_id key) secrets result
  | None => ret result
  end.

(** A sub-operation whose configuration field is absent is skipped. *)
Definition whenPresent {A} (field : option A)
    (stage : A -> ProductionalizationResult -> M (World R) ProductionalizationResult)
    (result : ProductionalizationResult) : M (World R) ProductionalizationResult :=
  match field with
  | Some x => stage x result
  | None => ret result
  end.

(** The sub-operations after the team permissions, in their fixed order. *)
Definition laterStages (owner repo : string) (config : ProductionalizationConfig)
    (result : ProductionalizationResult) : M (World R) ProductionalizationResult :=
  let* result :=
    whenPresent (cfg_topics config) (addTopics owner repo) result in
  let* result :=
    whenPresent (cfg_environments config)
      (forEach (createEnvironment owner repo)) result in
  let* result :=
    whenPresent (cfg_environmentVariables config)
      (forEach
         (setEnvironmentVariables owner repo
            (env_name <$> default [] (cfg_environments config)))) result in
  let* result :=
    whenPresent (cfg_branchProtectionPreset config)
      (fun preset =>
         applyBranchProtection owner repo preset
           (cfg_branchProtectionTargetBranch config)) result in
  whenPresent (cfg_secrets config) (createSecrets owner repo) result.

(** Modelled from the spec: productionalizationService.ts is missing
    (its test file and its caller are there); section 4.6.  The six
    sub-operations run in their fixed order on a result that starts
    empty; every remote failure is caught inside its sub-operation. *)
Definition productionalizeRepository (owner repo : string)
    (config : ProductionalizationConfig) : M (World R) ProductionalizationResult :=
  let* result :=
    whenPresent (cfg_teamPermissions config)
      (forEach (addTeamPermission owner repo)) emptyResult in
  laterStages owner repo config result.

End Service.

(** Calls of the secrets interface. *)
Definition isSecretUpload (c : Call) : bool :=
  match c with
  | CreateOrUpdateRepoSecret _ _ _ _ _ => true
  | _ => false
  end.

Definition isPublicKeyFetch (c : Call) : bool :=
  match c with
  | GetRepoPublicKey _ _ => true
  | _ => false
  end.


End ProductionalizationService.

(** ** Top-level runner (src/main.ts) *)

Module Main.
Import Constants.
Export Productionalization.

(** The input parsers of src/util/inputParser.ts, which is missing: each
    takes the raw input string and returns the parsed value or throws. *)
Record InputParser := {
  parseTeamPermissions : string -> Error + list TeamPermissionConfig;
  parseTopics : string -> Error + list string;
  parseEnvironments : string -> Error + list EnvironmentConfig;
  parseEnvironmentVariables : string -> Error + list EnvironmentVariables;
  parseBranchProtectionPreset : string -> Error + option BranchProtectionPreset;
  parseSecrets : string -> Error + list RepositorySecret
}.

(** What a [catch] clause can receive: an [Error], or any other value,
    which a rejected promise may carry as well. *)
Inductive Thrown :=
  | IsError (e : Error)
  | NotError.

(** What a run does that can be observed from outside. *)
Inductive Event :=
  | Parse (parser raw : string)
  | CreateRepository (input : RepositoryInput)
  | ProductionalizeRepository (owner : string) (repo : option string)
      (config : ProductionalizationConfig)
  | SetOutput (name value : string)
  | Info (message : string)
  | SetFailed (message : string).

(** [P] is the state of the remote platform. *)
Record Run (P : Type) := { events : list Event; remote : P }.

Arguments events {P}.
Arguments remote {P}.

Record FoundryInitializer := {
  input : RepositoryInput;
  octokitClient : string
}.

(** [a || b] on strings: the empty string is falsy. *)
Definition orElse (a b : string) : string :=
  if String.eqb a "" then b else a.

(** [s.split('/')] *)
Fixpoint split (sep : ascii) (s : string) : list string :=
  match s with
  | EmptyString => [""]
  | String c rest =>
      if Ascii.eqb c sep then "" :: split sep rest
      else
        match split sep rest with
        | first :: others => String c first :: others
        | [] => [String c ""]
        end
  end.

(** The white space and the line terminators of ECMAScript among the
    characters of the model, which are those below 256: TAB, LF, VT, FF,
    CR, SP and NBSP. *)
Definition isWhiteSpace (c : ascii) : bool :=
  let n := nat_of_ascii c in
  ((9 <=? n)%nat && (n <=? 13)%nat) || (n =? 32)%nat || (n =? 160)%nat.

Fixpoint trimStart (s : string) : string :=
  match s with
  | EmptyString => EmptyString
  | String c rest => if isWhiteSpace c then trimStart rest else s
  end.

Fixpoint trimEnd (s : string) : string :=
  match s with
  | EmptyString => EmptyString
  | String c rest =>
      match trimEnd rest with
      | EmptyString => if isWhiteSpace c then EmptyString else String c EmptyString
      | kept => String c kept
      end
  end.

(** [s.trim()] *)
Definition trim (s : string) : string := trimEnd (trimStart s).

Section Runner.
Context {P : Type}.
(** The inputs of the action: [inputs !! name] is what was supplied
    under [name], as [core.getInput] reads it. *)
Context (inputs : gmap string string).
Context (parser : InputParser).
(** The two services the runner calls; a rejection of theirs carries
    whatever was thrown. *)
Context (createRepository : RepositoryInput -> P -> (Thrown + RepositoryResult) * P).
Context (productionalizeRepository :
           string -> option string -> ProductionalizationConfig ->
           P -> (Thrown + ProductionalizationResult) * P).
(** [JSON.stringify] on a result. *)
Context (stringify : ProductionalizationResult -> string).
(** The exponent notation [Number.prototype.toString] gives an integer of
    magnitude 10^21 and more. *)
Context (exponential : Z -> string).

Definition emit {E} (e : Event) : Throws E (Run P) unit :=
  modify (fun r => {| events := events r ++ [e]; remote := remote r |}).

(** [core.getInput(name, {required})]: the value supplied under [name],
    the empty string when there is none, with the white space at both ends
    removed; an exception when the input is required and, before the
    trimming, empty. *)
Definition getInput (name : string) (required : bool) : M (Run P) string :=
  let val := default "" (inputs !! name) in
  if required && String.eqb val "" then
    throw (mkError ("Input required and not supplied: " +:+ name) false)
  else ret (trim val).

(** A call of one input parser. *)
Definition parse {A} (name : string) (f : string -> Error + A) (raw : string)
    : M (Run P) A :=
  do emit (Parse name raw) in
  match f raw with
  | inl e => throw e
  | inr a => ret a
  end.

(** [if (raw) { config.field = parse(raw) }] *)
Definition parseWhenSupplied {A} (name : string) (f : string -> Error + A)
    (raw : string) : M (Run P) (option A) :=
  if String.eqb raw "" then ret None
  else let* a := parse name f raw in ret (Some a).

Definition getInitializer : M (Run P) FoundryInitializer :=
  tryCatch
    (let* token := getInput "github-token" true in
     let* name := getInput "repository-name" true in
     let* description := getInput "repository-description" false in
     let* private := getInput "repository-private" false in
     let* template := getInput "repository-template" false in
     let* organization := getInput "organization" false in
     let* autoInit := getInput "auto-init" false in
     let* gitignoreTemplate := getInput "gitignore-template" false in
     let* licenseTemplate := getInput "license-template" false in
     let* defaultBranch := getInput "default-branch" false in
     let input :=
       {| token := token;
          repo_name := name;
          description := description;
          private := String.eqb private "true";
          template := Some template;
          organization := Some organization;
          autoInit := String.eqb autoInit "true";
          gitignoreTemplate := Some gitignoreTemplate;
          licenseTemplate := Some licenseTemplate;
          defaultBranch := Some (orElse defaultBranch "main");
          productionalize := None;
          productionalizationConfig := None |} in
     let* productionalizeInput := getInput "productionalize" false in
     let productionalize :=
       String.eqb productionalizeInput "true" || DEFAULT_PRODUCTIONALIZE in
     let* input :=
       if productionalize then
         let* teamPermissionsInput := getInput "team-permissions" false in
         let* teamPermissions :=
           parseWhenSupplied "parseTeamPermissions"
             (parseTeamPermissions parser) teamPermissionsInput in
         let* topicsInput := getInput "repository-topics" false in
         let* topics :=
           parseWhenSupplied "parseTopics" (parseTopics parser) topicsInput in
         let* environmentsInput := getInput "environments" false in
         let* environments :=
           parseWhenSupplied "parseEnvironments"
             (parseEnvironments parser) environmentsInput in
         let* envVarsInput := getInput "environment-variables" false in
         let* environmentVariables :=
           parseWhenSupplied "parseEnvironmentVariables"
             (parseEnvironmentVariables parser) envVarsInput in
         let* branchProtectionInput := getInput "branch-protection-preset" false in
         let* branchProtection :=
           if String.eqb branchProtectionInput "" then ret (None, None)
           else
             let* preset :=
               parse "parseBranchProtectionPreset"
                 (parseBranchProtectionPreset parser) branchProtectionInput in
             let* targetBranchInput :=
               getInput "branch-protection-target-branch" false in
             let targetBranch :=
               orElse targetBranchInput DEFAULT_BRANCH_PROTECTION_TARGET in
             ret (preset, Some targetBranch) in
         let* secretsInput := getInput "repository-secrets" false in
         let* secrets :=
           parseWhenSupplied "parseSecrets" (parseSecrets parser) secretsInput in
         let productionalizationConfig :=
           {| cfg_teamPermissions := teamPermissions;
              cfg_topics := topics;
              cfg_environments := environments;
              cfg_environmentVariables := environmentVariables;
              cfg_branchProtectionPreset := fst branchProtection;
              cfg_branchProtectionTargetBranch := snd branchProtection;
              cfg_secrets := secrets |} in
         ret {| token := token;
                repo_name := name;
                description := description;
                private := String.eqb private "true";
                template := Some template;
                organization := Some organization;
                autoInit := String.eqb autoInit "true";
                gitignoreTemplate := Some gitignoreTemplate;
                licenseTemplate := Some licenseTemplate;
                defaultBranch := Some (orElse defaultBranch "main");
                productionalize := Some true;
                productionalizationConfig := Some productionalizationConfig |}
       else ret input in
     ret {| input := input; octokitClient := token |})
    (fun error =>
       throw (mkError ("Failed to initialize Foundry: Error: " +:+ message error)
                false)).

(** A call of a service on the remote platform, recorded. *)
Definition service {A} (e : Event) (f : P -> (Thrown + A) * P)
    : Throws Thrown (Run P) A :=
  do emit e in
  fun r =>
    let '(a, p) := f (remote r) in
    (a, {| events := events r; remote := p |}).

(** [await] on the promise of a computation that throws [Error]s only. *)
Definition await {S A} (m : M S A) : Throws Thrown S A :=
  fun s =>
    match m s with
    | (inr a, s') => (inr a, s')
    | (inl e, s') => (inl (IsError e), s')
    end.

(** [n.toString()] for a number that holds the integer [n]. *)
Definition numberToString (n : Z) : string :=
  if (Z.abs n <? 10 ^ 21)%Z then pretty n else exponential n.

(** [run]: the initialization is awaited inside the [try], so that a
    failure of [getInitializer] ends in [core.setFailed] as well.  The
    messages to the logger are left out, those to [core.info] are
    events. *)
Definition run : Throws Thrown (Run P) unit :=
  tryCatch
    (let* initializer := await getInitializer in
     let input := input initializer in
     let* result := service (CreateRepository input) (createRepository input) in
     do emit (SetOutput "repository-url" (html_url result)) in
     do emit (SetOutput "repository-name" (full_name result)) in
     do emit (SetOutput "repository-id" (numberToString (id result))) in
     do emit (Info ("Repository created successfully: " +:+ html_url result)) in
     match productionalize input, productionalizationConfig input with
     | Some true, Some config =>
         do emit (Info "Starting repository productionalization...") in
         let parts := split "/" (full_name result) in
         let owner := default "" (parts !! 0) in
         let repo := parts !! 1 in
         let* prodResult :=
           service (ProductionalizeRepository owner repo config)
             (productionalizeRepository owner repo config) in
         do emit (SetOutput "productionalization-status" (stringify prodResult)) in
         emit (Info "Repository productionalization complete")
     | _, _ => ret tt
     end)
    (fun error =>
       match error with
       | IsError e => emit (SetFailed (message e))
       | NotError => emit (SetFailed "An unknown error occurred")
       end).

End Runner.

(** Events of the productionalization pass. *)
Definition isParse (e : Event) : bool :=
  match e with
  | Parse _ _ => true
  | _ => false
  end.

Definition isProductionalize (e : Event) : bool :=
  match e with
  | ProductionalizeRepository _ _ _ => true
  | _ => false
  end.

Definition isStatusOutput (e : Event) : bool :=
  match e with
  | SetOutput name _ => String.eqb name "productionalization-status"
  | _ => false
  end.

End Main.


(** * Properties

    The rest of the file states and proves properties of the definitions
    above.  It starts with the predicates and the layout of the store that
    the statements and the proofs use. *)

Import CaseConverter JsHeap BranchProtectionPresets.

(** ** Layout of the store after the module load *)

#[global] Instance BranchProtectionPreset_eq_dec : EqDecision BranchProtectionPreset.
Proof. solve_decision. Defined.

(** Where the template of a preset, and the catalog, are allocated. *)
Definition templateLoc (p : BranchProtectionPreset) : nat :=
  match p with strict => 8 | moderate => 17 | minimal => 26 end.

Definition catalogLoc : nat := 27.

(** The [ref_name] object of a template: the one object a call writes to. *)
Definition refNameLoc (p : BranchProtectionPreset) : nat := templateLoc p - 6.

Definition templateName (p : BranchProtectionPreset) : string :=
  "Branch protection rules (" +:+ presetKey p +:+ ")".

Definition catalogProps : gmap string val :=
  list_to_map [("strict", VRef 8); ("moderate", VRef 17); ("minimal", VRef 26)].

Definition templateProps (p : BranchProtectionPreset) : gmap string val :=
  list_to_map
    [("name", VStr (templateName p));
     ("target", VStr "branch");
     ("enforcement", VStr "active");
     ("conditions", VRef (templateLoc p - 5));
     ("rules", VRef (templateLoc p - 1))].

Definition refNameProps (p : BranchProtectionPreset) (inc : val) : gmap string val :=
  <["include" := inc]> {["exclude" := VRef (templateLoc p - 7)]}.

Definition pullRequestProps (p : BranchProtectionPreset) : gmap string val :=
  list_to_map [("type", VStr "pull_request"); ("parameters", VRef (templateLoc p - 4))].

Definition nonFastForwardProps : gmap string val :=
  list_to_map [("type", VStr "non_fast_forward")].

Definition parametersProps (p : BranchProtectionPreset) : gmap string val :=
  list_to_map
    [("dismiss_stale_reviews_on_push", VBool (bool_decide (p <> minimal)));
     ("require_code_owner_review", VBool false);
     ("require_last_push_approval", VBool (bool_decide (p <> minimal)));
     ("required_approving_review_count", VNum (if bool_decide (p = strict) then 2 else 1));
     ("required_review_thread_resolution", VBool (bool_decide (p <> minimal)))].

(** The invariant of the store: everything the module load allocated is as
    it was, except the [include] property of the three [ref_name] objects. *)
Definition catalogIntact (h : heap) : Prop :=
  next initialHeap <= next h
  /\ (forall l, l < next initialHeap -> (forall p, l <> refNameLoc p) ->
        cells h !! l = cells initialHeap !! l)
  /\ (forall p, exists inc,
        cells h !! refNameLoc p = Some (CObject (refNameProps p inc))).

(** The store a call of [getBranchProtectionPreset p b] leaves: the copy of
    the template, the new [include] array, and the [ref_name] object of the
    template updated in place. *)
Definition afterCall (h : heap) (p : BranchProtectionPreset) (b : string) : heap :=
  Heap (<[refNameLoc p := CObject (refNameProps p (VRef (S (next h))))]>
         (<[S (next h) := CArray [VStr ("refs/heads/" +:+ b)]]>
           (<[next h := CObject (templateProps p)]> (cells h))))
       (S (S (next h))).

(** The document a reader sees behind the object a call returns. *)
Definition presetDocument (p : BranchProtectionPreset) (b : string)
    : BranchProtectionRuleset :=
  {| name := templateName p;
     target := "branch";
     enforcement := "active";
     conditions :=
       {| ref_name := {| include := ["refs/heads/" +:+ b]; exclude := [] |} |};
     rules :=
       [ {| rule_type := "pull_request"; parameters := Some (parametersProps p) |};
         {| rule_type := "non_fast_forward"; parameters := None |} ] |}.

(** A parameter of the [pull_request] rule of a document. *)
Definition parametersOf (doc : BranchProtectionRuleset) (k : string) : option val :=
  r ← findRule "pull_request" doc; params ← parameters r; params !! k.

(** The [include] list of a document read from the store. *)
Definition includeOf (doc : option BranchProtectionRuleset) : option (list string) :=
  (fun d => include (ref_name (conditions d))) <$> doc.

(** ** Runs of the orchestrator *)

Import SecretEncryption ProductionalizationService.

(** The sub-operation a call belongs to, numbered as in section 4.6. *)
Definition stageOf (c : Call) : nat :=
  match c with
  | AddOrUpdateRepoPermissionsInOrg _ _ _ _ _ => 1
  | GetAllTopics _ _ | ReplaceAllTopics _ _ _ => 2
  | GetByName _ _ | GetByUsername _ | CreateOrUpdateEnvironment _ _ _ _ _ _ => 3
  | CreateEnvironmentVariable _ _ _ _ _ | UpdateEnvironmentVariable _ _ _ _ _ => 4
  | CreateRepoRuleset _ _ _ => 5
  | GetRepoPublicKey _ _ | CreateOrUpdateRepoSecret _ _ _ _ _ => 6
  end.



(** [attempt P m Q]: whatever the platform answers, [m] only adds calls that
    satisfy [P] to the record, keeps the catalog of presets intact, and when
    it returns, returns a value that satisfies [Q].  [safe P m Q]: moreover
    [m] does not throw. *)
Definition attempt {R A} (P : Call -> Prop) (m : M (World R) A) (Q : A -> Prop) : Prop :=
  forall w, exists r w' l,
    m w = (r, w') /\ calls w' = (calls w ++ l)%list /\ Forall P l
    /\ (catalogIntact (store w) -> catalogIntact (store w'))
    /\ (forall a, r = inr a -> Q a).

Definition safe {R A} (P : Call -> Prop) (m : M (World R) A) (Q : A -> Prop) : Prop :=
  forall w, exists a w' l,
    m w = (inr a, w') /\ calls w' = (calls w ++ l)%list /\ Forall P l
    /\ (catalogIntact (store w) -> catalogIntact (store w'))
    /\ Q a.










(** The configuration with the secrets left out: a run on it is the run up
    to the beginning of the secrets sub-operation. *)
Definition withoutSecrets (config : ProductionalizationConfig)
    : ProductionalizationConfig :=
  {| cfg_teamPermissions := cfg_teamPermissions config;
     cfg_topics := cfg_topics config;
     cfg_environments := cfg_environments config;
     cfg_environmentVariables := cfg_environmentVariables config;
     cfg_branchProtectionPreset := cfg_branchProtectionPreset config;
     cfg_branchProtectionTargetBranch := cfg_branchProtectionTargetBranch config;
     cfg_secrets := None |}.

(** *** A platform and a sealing primitive to run the orchestrator on

    The platform counts the calls it has answered.  It rejects the second
    permission call with ['Team not found'] and a fetch of the public key
    that is its eighth call with ['Access denied'], and accepts everything
    else. *)
Definition accept {A} (a : A) : Answer nat A := fun n => (inr a, S n).

Definition reject {A} (msg : string) : Answer nat A :=
  fun n => (inl (mkError msg false), S n).

Definition scriptedOctokit : Octokit nat :=
  {| addOrUpdateRepoPermissionsInOrg := fun _ _ _ _ _ n =>
       if Nat.eqb n 1 then reject "Team not found" n else accept tt n;
     getAllTopics := fun _ _ => accept ["existing-topic"];
     replaceAllTopics := fun _ _ _ => accept tt;
     getByName := fun _ _ => accept 123%Z;
     getByUsername := fun _ => accept 456%Z;
     createOrUpdateEnvironment := fun _ _ _ _ _ _ => accept tt;
     createEnvironmentVariable := fun _ _ _ _ _ => accept tt;
     updateEnvironmentVariable := fun _ _ _ _ _ => accept tt;
     getRepoPublicKey := fun _ _ n =>
       if Nat.eqb n 7 then reject "Access denied" n else accept ("key-id", "a2V5") n;
     createOrUpdateRepoSecret := fun _ _ _ _ _ => accept tt;
     createRepoRuleset := fun _ _ _ => accept tt |}.

(** A stand-in for libsodium: the "ciphertext" is the drawn number followed
    by the message. *)
Definition plainSodium : Sodium :=
  {| entropy := nat;
     from_string := list_byte_of_string;
     from_base64 := fun s => inr (list_byte_of_string s);
     crypto_box_seal := fun m _ r => inr (list_byte_of_string (pretty r) ++ m)%list;
     to_base64 := string_of_list_byte |}.

Definition freshWorld : World nat :=
  {| platform := 0; calls := []; store := initialHeap; draws := 0 |}.

(** The configuration of the test "should handle team permission failures
    gracefully", with topics, an environment, a variable, a preset and a
    secret added. *)
Definition twoTeams : list TeamPermissionConfig :=
  [ {| teamSlug := "valid-team"; permission := admin |};
    {| teamSlug := "invalid-team"; permission := push |} ].

Definition productionEnvironment : EnvironmentConfig :=
  {| env_name := "production"; waitTimer := None; reviewers := None;
     preventSelfReview := None |}.

Definition apiUrlVariable : EnvironmentVariable :=
  {| var_name := "apiUrl"; var_value := "https://api.example.com" |}.

Definition twoTeamsConfig : ProductionalizationConfig :=
  {| cfg_teamPermissions := Some twoTeams;
     cfg_topics := Some ["test-topic"];
     cfg_environments := Some [productionEnvironment];
     cfg_environmentVariables :=
       Some [ {| environmentName := "production"; variables := [apiUrlVariable] |} ];
     cfg_branchProtectionPreset := Some strict;
     cfg_branchProtectionTargetBranch := None;
     cfg_secrets := Some [ {| secret_name := "SECRET"; secret_value := "value" |} ] |}.

(** ** Runs of the action *)

(** A run starts with no event recorded. *)
Definition startRun {P} (p : P) : Main.Run P := {| Main.events := []; Main.remote := p |}.

(** An event that belongs to the productionalization pass. *)
Definition isPassEvent (e : Main.Event) : bool :=
  Main.isParse e || Main.isProductionalize e || Main.isStatusOutput e.

(** *** Inputs, parsers and services to run the action on

    The parsers accept every input; the preset parser knows the three
    preset names. *)
Definition simpleParser : Main.InputParser :=
  {| Main.parseTeamPermissions := fun _ => inr [];
     Main.parseTopics := fun raw => inr [raw];
     Main.parseEnvironments := fun _ => inr [];
     Main.parseEnvironmentVariables := fun _ => inr [];
     Main.parseBranchProtectionPreset := fun raw =>
       if String.eqb raw "strict" then inr (Some strict)
       else if String.eqb raw "moderate" then inr (Some moderate)
       else if String.eqb raw "minimal" then inr (Some minimal)
       else inl (mkError ("Invalid branch protection preset: " +:+ raw) false);
     Main.parseSecrets := fun _ => inr [] |}.

(** Both branch inputs are absent. *)
Definition defaultsInputs (flag : string) : gmap string string :=
  list_to_map
    [("github-token", "ghp_test_token_123");
     ("repository-name", "new-repo");
     ("productionalize", flag);
     ("branch-protection-preset", "strict")].

Definition createsRepository (input : RepositoryInput) (n : nat)
    : (Main.Thrown + RepositoryResult) * nat :=
  (inr {| id := 123; full_name := "owner/" +:+ repo_name input;
          html_url := "https://github.com/owner/" +:+ repo_name input |}, S n).

Definition productionalizesNothing (owner : string) (repo : option string)
    (config : ProductionalizationConfig) (n : nat)
    : (Main.Thrown + ProductionalizationResult) * nat :=
  (inr emptyResult, S n).

(** The engine's exponent notation is not needed for these runs. *)
Definition noExponent (n : Z) : string := "".

(** The flag with white space around it. *)
Definition paddedInputs : gmap string string :=
  <["productionalize" := " true "]> (defaultsInputs "true").



(** ** Sharing in the catalog *)

(** The rules every preset document has, with the parameters of the preset. *)
Definition presetRules (p : BranchProtectionPreset) : list Rule :=
  [ {| rule_type := "pull_request"; parameters := Some (parametersProps p) |};
    {| rule_type := "non_fast_forward"; parameters := None |} ].

(** The store keeps, for each preset, one [include] array that the template
    and all its copies share. *)
Definition sharedInclude (h : heap) (p : BranchProtectionPreset) (bs : list string)
    : Prop :=
  exists l,
    cells h !! refNameLoc p = Some (CObject (refNameProps p (VRef l)))
    /\ l < next h /\ (forall q, l <> refNameLoc q)
    /\ cells h !! l = Some (CArray (VStr <$> bs)).

Definition catalogShared (h : heap) : Prop :=
  catalogIntact h /\ forall p, exists bs, sharedInclude h p bs.

(** ** Initialization: what it records *)

(** The parser calls of an initialization in the order of the source: the
    name a call is recorded under and the input it reads. *)
Definition parserInputs : list (string * string) :=
  [("parseTeamPermissions", "team-permissions");
   ("parseTopics", "repository-topics");
   ("parseEnvironments", "environments");
   ("parseEnvironmentVariables", "environment-variables");
   ("parseBranchProtectionPreset", "branch-protection-preset");
   ("parseSecrets", "repository-secrets")].

(** One call for each input that is not empty once trimmed, on the
    trimmed input. *)
Definition parseCalls (inputs : gmap string string) : list Main.Event :=
  flat_map
    (fun entry =>
       let raw := Main.trim (default "" (inputs !! entry.2)) in
       if String.eqb raw "" then [] else [Main.Parse entry.1 raw])
    parserInputs.

(** The exception the parser recorded under [name] throws on [raw]. *)
Definition thrown {A} (f : string -> Error + A) (raw : string) : option Error :=
  match f raw with
  | inl e => Some e
  | inr _ => None
  end.

Definition parserError (parser : Main.InputParser) (name raw : string) : option Error :=
  if String.eqb name "parseTeamPermissions" then
    thrown (Main.parseTeamPermissions parser) raw
  else if String.eqb name "parseTopics" then
    thrown (Main.parseTopics parser) raw
  else if String.eqb name "parseEnvironments" then
    thrown (Main.parseEnvironments parser) raw
  else if String.eqb name "parseEnvironmentVariables" then
    thrown (Main.parseEnvironmentVariables parser) raw
  else if String.eqb name "parseBranchProtectionPreset" then
    thrown (Main.parseBranchProtectionPreset parser) raw
  else if String.eqb name "parseSecrets" then
    thrown (Main.parseSecrets parser) raw
  else None.

(** Where an exception [e] of the initialization comes from, given the
    events [es] recorded before it: a required input that is missing when
    no parser was called yet, and otherwise the parser called last. *)
Definition initFailure (inputs : gmap string string) (parser : Main.InputParser)
    (e : Error) (es : list Main.Event) : Prop :=
  match last es with
  | None =>
      exists name, name ∈ ["github-token"; "repository-name"]
        /\ default "" (inputs !! name) = ""
        /\ e = mkError ("Input required and not supplied: " +:+ name) false
  | Some (Main.Parse name raw) => parserError parser name raw = Some e
  | Some _ => False
  end.

(** [m] leaves the remote platform alone and records the events [es], or
    a prefix of them when it throws, in which case [F] holds of the
    exception and of what was recorded. *)
Definition records {P A} (m : M (Main.Run P) A) (es : list Main.Event)
    (F : Error -> list Main.Event -> Prop) : Prop :=
  forall r,
    Main.remote (m r).2 = Main.remote r
    /\ exists es',
        Main.events (m r).2 = (Main.events r ++ es')%list
        /\ es' `prefix_of` es
        /\ (forall a, (m r).1 = inr a -> es' = es)
        /\ (forall e, (m r).1 = inl e -> F e es').

(** What a parser made of an input: nothing when the input is empty. *)
Definition parsed {A} (f : string -> Error + A) (raw : string) : option A :=
  if String.eqb raw "" then None
  else match f raw with
       | inr a => Some a
       | inl _ => None
       end.

Definition isFailure (e : Main.Event) : bool :=
  match e with
  | Main.SetFailed _ => true
  | _ => false
  end.

(** Does the character occur in the string? *)
Fixpoint occurs (c : ascii) (s : string) : bool :=
  match s with
  | EmptyString => false
  | String d rest => Ascii.eqb d c || occurs c rest
  end.

(** The events of a run up to the end of the creation of the repository. *)
Definition created (exponential : Z -> string) (input : RepositoryInput)
    (result : RepositoryResult) : list Main.Event :=
  [Main.CreateRepository input;
   Main.SetOutput "repository-url" (html_url result);
   Main.SetOutput "repository-name" (full_name result);
   Main.SetOutput "repository-id" (Main.numberToString exponential (id result));
   Main.Info ("Repository created successfully: " +:+ html_url result)].

(** What [run] passes to [core.setFailed] for what it caught. *)
Definition failureMessage (thrown : Main.Thrown) : string :=
  match thrown with
  | Main.IsError e => message e
  | Main.NotError => "An unknown error occurred"
  end.

(** The exception the initialization rethrows for [e]. *)
Definition wrapped (e : Error) : Error :=
  mkError ("Failed to initialize Foundry: Error: " +:+ message e) false.

Definition isOutput (e : Main.Event) : bool :=
  match e with
  | Main.SetOutput _ _ => true
  | _ => false
  end.

(** *** Further inputs and services to run the action on *)

(** The preset name is not one of the three. *)
Definition invalidPresetInputs : gmap string string :=
  <["branch-protection-preset" := "lenient"]> (defaultsInputs "true").

(** The creation is rejected with an [Error], the productionalization
    with a value that is not one. *)
Definition rejectsRepository (input : RepositoryInput) (n : nat)
    : (Main.Thrown + RepositoryResult) * nat :=
  (inl (Main.IsError
          (mkError ("Repository " +:+ repo_name input +:+ " already exists") true)),
   S n).


(** The token is white space only; the flag and the preset are padded. *)
Definition blankTokenInputs : gmap string string :=
  list_to_map
    [("github-token", " ");
     ("repository-name", "new-repo");
     ("repository-private", " true");
     ("productionalize", "true ");
     ("repository-topics", "  ");
     ("branch-protection-preset", " strict ");
     ("branch-protection-target-branch", " ")].


(** ** Case normalizer: facts *)

(** The model agrees with every expectation of the test file. *)
Lemma caseConverterTests_pass :
  Forall (fun t => toUpperSnakeCase (fst t) = snd t) caseConverterTests.
Proof. repeat constructor. Qed.



(** ** Branch protection presets: facts *)

Lemma next_initialHeap : next initialHeap = 28.
Proof. vm_compute. reflexivity. Qed.

Lemma BRANCH_PROTECTION_PRESETS_loaded : BRANCH_PROTECTION_PRESETS = VRef catalogLoc.
Proof. vm_compute. reflexivity. Qed.

Lemma initialHeap_catalog : cells initialHeap !! catalogLoc = Some (CObject catalogProps).
Proof. vm_compute. reflexivity. Qed.

Lemma catalogProps_lookup p : catalogProps !! presetKey p = Some (VRef (templateLoc p)).
Proof. destruct p; vm_compute; reflexivity. Qed.

Lemma initialHeap_template p :
  cells initialHeap !! templateLoc p = Some (CObject (templateProps p)).
Proof. destruct p; vm_compute; reflexivity. Qed.

Lemma templateProps_conditions p :
  templateProps p !! "conditions" = Some (VRef (templateLoc p - 5)).
Proof. destruct p; vm_compute; reflexivity. Qed.

Lemma initialHeap_conditions p :
  cells initialHeap !! (templateLoc p - 5) =
  Some (CObject {["ref_name" := VRef (refNameLoc p)]}).
Proof. destruct p; vm_compute; reflexivity. Qed.

Lemma initialHeap_refName p :
  cells initialHeap !! refNameLoc p =
  Some (CObject (refNameProps p (VRef (templateLoc p - 8)))).
Proof. destruct p; vm_compute; reflexivity. Qed.

Lemma templateLoc_bounds p : 8 <= templateLoc p < 28.
Proof. destruct p; simpl; lia. Qed.

Lemma refNameLoc_inj p q : refNameLoc p = refNameLoc q -> p = q.
Proof. by destruct p, q. Qed.

Lemma not_refNameLoc l :
  (forall q, l <> refNameLoc q) <-> l <> 2 /\ l <> 11 /\ l <> 20.
Proof.
  split.
  - intros H. split; [apply (H strict)|split; [apply (H moderate)|apply (H minimal)]].
  - intros (H1 & H2 & H3) []; done.
Qed.

Lemma catalogIntact_initialHeap : catalogIntact initialHeap.
Proof.
  split; [done|]. split; [done|].
  intros p. eexists. apply initialHeap_refName.
Qed.

Lemma getProp_object h l props k :
  cells h !! l = Some (CObject props) ->
  getProp (VRef l) k h = (inr (default VUndefined (props !! k)), h).
Proof. unfold getProp. by intros ->. Qed.

Lemma spread_object h l props :
  cells h !! l = Some (CObject props) ->
  spread (VRef l) h =
  (inr (VRef (next h)), Heap (<[next h := CObject props]> (cells h)) (S (next h))).
Proof. unfold spread. by intros ->. Qed.

Lemma setProp_object h l props k x :
  cells h !! l = Some (CObject props) ->
  setProp (VRef l) k x h =
  (inr tt, Heap (<[l := CObject (<[k := x]> props)]> (cells h)) (next h)).
Proof. unfold setProp. by intros ->. Qed.

Lemma bind_inr {S A B} (m : M S A) (k : A -> M S B) s a s' :
  m s = (inr a, s') -> bind m k s = k a s'.
Proof. unfold bind. by intros ->. Qed.

Lemma catalogIntact_next h : catalogIntact h -> 28 <= next h.
Proof. intros (Hnext & _). by rewrite next_initialHeap in Hnext. Qed.

Lemma catalogIntact_static h l c :
  catalogIntact h -> l < 28 -> l <> 2 /\ l <> 11 /\ l <> 20 ->
  cells initialHeap !! l = Some c -> cells h !! l = Some c.
Proof.
  intros (_ & Hframe & _) Hl Hq <-. apply Hframe.
  - by rewrite next_initialHeap.
  - by apply not_refNameLoc.
Qed.

Lemma getBranchProtectionPreset_intact h p b :
  catalogIntact h ->
  getBranchProtectionPreset p b h =
  (inr (VRef (next h)), afterCall h p (default "master" b)).
Proof.
  intros Hh. pose proof (catalogIntact_next h Hh) as Hn.
  pose proof (templateLoc_bounds p) as Hp.
  destruct Hh as (Hnext & Hframe & Hrn).
  assert (catalogIntact h) as Hh by done.
  destruct (Hrn p) as [inc Hinc].
  unfold getBranchProtectionPreset.
  rewrite BRANCH_PROTECTION_PRESETS_loaded.
  erewrite bind_inr; cycle 1.
  { apply getProp_object. apply (catalogIntact_static h _ _ Hh); [..|apply initialHeap_catalog].
    all: unfold catalogLoc; lia. }
  rewrite catalogProps_lookup. cbn [default].
  erewrite bind_inr; cycle 1.
  { apply spread_object.
    apply (catalogIntact_static h _ _ Hh); [..|apply initialHeap_template].
    all: destruct p; simpl; lia. }
  erewrite bind_inr; cycle 1.
  { apply getProp_object. cbn [cells]. apply lookup_insert_eq. }
  rewrite templateProps_conditions. cbn [default].
  erewrite bind_inr; cycle 1.
  { apply getProp_object. cbn [cells]. rewrite lookup_insert_ne by lia.
    apply (catalogIntact_static h _ _ Hh); [lia|destruct p; simpl; lia|].
    apply initialHeap_conditions. }
  rewrite lookup_singleton_eq. cbn [default].
  unfold newArray. erewrite bind_inr; [|reflexivity].
  erewrite bind_inr; cycle 1.
  { apply setProp_object. cbn [cells next].
    rewrite !lookup_insert_ne by (unfold refNameLoc; lia). exact Hinc. }
  unfold ret, afterCall, refNameProps. cbn [cells next]. by rewrite insert_insert_eq.
Qed.

Lemma afterCall_intact h p b : catalogIntact h -> catalogIntact (afterCall h p b).
Proof.
  intros Hh. pose proof (catalogIntact_next h Hh) as Hn.
  pose proof (templateLoc_bounds p) as Hp.
  destruct Hh as (Hnext & Hframe & Hrn).
  split; [cbn [afterCall next]; lia|]. split.
  - intros l Hl Hq. cbn [afterCall cells].
    rewrite next_initialHeap in Hl.
    rewrite !lookup_insert_ne; [by apply Hframe; [rewrite next_initialHeap|]|..].
    + lia.
    + lia.
    + apply not_eq_sym, Hq.
  - intros q. cbn [afterCall cells].
    destruct (decide (refNameLoc q = refNameLoc p)) as [->%refNameLoc_inj|Hqp].
    + rewrite lookup_insert_eq. eauto.
    + pose proof (templateLoc_bounds q) as Hq.
      rewrite !lookup_insert_ne; [apply Hrn|..].
      * unfold refNameLoc; lia.
      * unfold refNameLoc; lia.
      * by apply not_eq_sym.
Qed.

Lemma reachable_intact h : reachable h -> catalogIntact h.
Proof.
  induction 1 as [|h p b r h' _ IH Hcall]; [apply catalogIntact_initialHeap|].
  rewrite (getBranchProtectionPreset_intact h p b IH) in Hcall.
  injection Hcall as _ <-. by apply afterCall_intact.
Qed.

Lemma readObject_object h l props :
  cells h !! l = Some (CObject props) -> readObject h (VRef l) = Some props.
Proof. unfold readObject. by intros ->. Qed.

Lemma readArray_array h l elems :
  cells h !! l = Some (CArray elems) -> readArray h (VRef l) = Some elems.
Proof. unfold readArray. by intros ->. Qed.

Lemma initialHeap_exclude p : cells initialHeap !! (templateLoc p - 7) = Some (CArray []).
Proof. destruct p; vm_compute; reflexivity. Qed.

Lemma initialHeap_rules p :
  cells initialHeap !! (templateLoc p - 1) =
  Some (CArray [VRef (templateLoc p - 3); VRef (templateLoc p - 2)]).
Proof. destruct p; vm_compute; reflexivity. Qed.

Lemma initialHeap_pullRequest p :
  cells initialHeap !! (templateLoc p - 3) = Some (CObject (pullRequestProps p)).
Proof. destruct p; vm_compute; reflexivity. Qed.

Lemma initialHeap_parameters p :
  cells initialHeap !! (templateLoc p - 4) = Some (CObject (parametersProps p)).
Proof. destruct p; vm_compute; reflexivity. Qed.

Lemma initialHeap_nonFastForward p :
  cells initialHeap !! (templateLoc p - 2) = Some (CObject nonFastForwardProps).
Proof. destruct p; vm_compute; reflexivity. Qed.

Lemma templateProps_lookup p :
  templateProps p !! "name" = Some (VStr (templateName p))
  /\ templateProps p !! "target" = Some (VStr "branch")
  /\ templateProps p !! "enforcement" = Some (VStr "active")
  /\ templateProps p !! "rules" = Some (VRef (templateLoc p - 1)).
Proof. destruct p; vm_compute; auto. Qed.

Lemma pullRequestProps_lookup p :
  pullRequestProps p !! "type" = Some (VStr "pull_request")
  /\ pullRequestProps p !! "parameters" = Some (VRef (templateLoc p - 4)).
Proof. destruct p; vm_compute; auto. Qed.

Lemma nonFastForwardProps_lookup :
  nonFastForwardProps !! "type" = Some (VStr "non_fast_forward")
  /\ nonFastForwardProps !! "parameters" = None.
Proof. vm_compute; auto. Qed.

Lemma refNameProps_lookup p inc :
  refNameProps p inc !! "include" = Some inc
  /\ refNameProps p inc !! "exclude" = Some (VRef (templateLoc p - 7)).
Proof.
  unfold refNameProps. split; [apply lookup_insert_eq|].
  rewrite lookup_insert_ne by done. apply lookup_singleton_eq.
Qed.

Lemma readRule_pullRequest h p :
  catalogIntact h ->
  readRule h (VRef (templateLoc p - 3)) =
  Some {| rule_type := "pull_request"; parameters := Some (parametersProps p) |}.
Proof.
  intros Hh. pose proof (templateLoc_bounds p) as Hp.
  destruct (pullRequestProps_lookup p) as [Htype Hparams].
  unfold readRule.
  rewrite (readObject_object h _ (pullRequestProps p)); cycle 1.
  { apply (catalogIntact_static h _ _ Hh); [..|apply initialHeap_pullRequest].
    all: destruct p; simpl; lia. }
  cbn [mbind option_bind]. rewrite Htype, Hparams. cbn [mbind option_bind readString].
  rewrite (readObject_object h _ (parametersProps p)); [done|].
  apply (catalogIntact_static h _ _ Hh); [..|apply initialHeap_parameters].
  all: destruct p; simpl; lia.
Qed.

Lemma readRule_nonFastForward h p :
  catalogIntact h ->
  readRule h (VRef (templateLoc p - 2)) =
  Some {| rule_type := "non_fast_forward"; parameters := None |}.
Proof.
  intros Hh. pose proof (templateLoc_bounds p) as Hp.
  destruct nonFastForwardProps_lookup as [Htype Hparams].
  unfold readRule.
  rewrite (readObject_object h _ nonFastForwardProps); cycle 1.
  { apply (catalogIntact_static h _ _ Hh); [..|apply initialHeap_nonFastForward].
    all: destruct p; simpl; lia. }
  cbn [mbind option_bind]. by rewrite Htype, Hparams.
Qed.

Lemma readRuleset_afterCall h p b :
  catalogIntact h ->
  readRuleset (afterCall h p b) (VRef (next h)) = Some (presetDocument p b).
Proof.
  intros Hh. pose proof (catalogIntact_next h Hh) as Hn.
  pose proof (afterCall_intact h p b Hh) as Hh'.
  pose proof (templateLoc_bounds p) as Hp.
  destruct (templateProps_lookup p) as (Hname & Htarget & Henf & Hrules).
  destruct (refNameProps_lookup p (VRef (S (next h)))) as [Hinc Hexc].
  unfold readRuleset.
  rewrite (readObject_object _ _ (templateProps p)); cycle 1.
  { cbn [afterCall cells]. rewrite !lookup_insert_ne by (unfold refNameLoc; lia).
    apply lookup_insert_eq. }
  cbn [mbind option_bind].
  rewrite Hname, Htarget, Henf, templateProps_conditions, Hrules.
  cbn [mbind option_bind readString].
  assert (readConditions (afterCall h p b) (VRef (templateLoc p - 5)) =
          Some {| ref_name := {| include := ["refs/heads/" +:+ b]; exclude := [] |} |}) as ->.
  { unfold readConditions.
    rewrite (readObject_object _ _ {["ref_name" := VRef (refNameLoc p)]}); cycle 1.
    { apply (catalogIntact_static _ _ _ Hh'); [..|apply initialHeap_conditions].
      all: destruct p; simpl; lia. }
    cbn [mbind option_bind]. rewrite lookup_singleton_eq. cbn [mbind option_bind].
    unfold readRefName.
    rewrite (readObject_object _ _ (refNameProps p (VRef (S (next h)))));
      [|cbn [afterCall cells]; apply lookup_insert_eq].
    cbn [mbind option_bind]. rewrite Hinc, Hexc. cbn [mbind option_bind].
    unfold readStrings.
    rewrite (readArray_array _ (S (next h)) [VStr ("refs/heads/" +:+ b)]); cycle 1.
    { cbn [afterCall cells]. rewrite lookup_insert_ne by (unfold refNameLoc; lia).
      apply lookup_insert_eq. }
    rewrite (readArray_array _ (templateLoc p - 7) []); [done|].
    apply (catalogIntact_static _ _ _ Hh'); [..|apply initialHeap_exclude].
    all: destruct p; simpl; lia. }
  rewrite (readArray_array _ _ [VRef (templateLoc p - 3); VRef (templateLoc p - 2)]); cycle 1.
  { apply (catalogIntact_static _ _ _ Hh'); [..|apply initialHeap_rules].
    all: destruct p; simpl; lia. }
  cbn [mbind option_bind mapM].
  rewrite (readRule_pullRequest _ p Hh'), (readRule_nonFastForward _ p Hh').
  done.
Qed.

(** C5: in every store the program can be in, for every preset and target
    branch, the call returns a ruleset whose [include] list is exactly
    ['refs/heads/' + b], whose [pull_request] rule requires 2 approvals for
    [strict] and 1 for [moderate] and [minimal], with stale-review
    dismissal, last-push approval and thread resolution on for [strict] and
    [moderate] and off for [minimal], and which has a [non_fast_forward]
    rule. *)
Theorem getBranchProtectionPreset_ruleset (h : heap) (p : BranchProtectionPreset)
    (b : string) :
  reachable h ->
  exists config h' doc,
    getBranchProtectionPreset p (Some b) h = (inr config, h')
    /\ readRuleset h' config = Some doc
    /\ include (ref_name (conditions doc)) = ["refs/heads/" +:+ b]
    /\ parametersOf doc "required_approving_review_count" =
       Some (VNum (match p with strict => 2 | _ => 1 end))
    /\ parametersOf doc "dismiss_stale_reviews_on_push" =
       Some (VBool (match p with minimal => false | _ => true end))
    /\ parametersOf doc "require_last_push_approval" =
       Some (VBool (match p with minimal => false | _ => true end))
    /\ parametersOf doc "required_review_thread_resolution" =
       Some (VBool (match p with minimal => false | _ => true end))
    /\ is_Some (findRule "non_fast_forward" doc).
Proof.
  intros Hh%reachable_intact.
  exists (VRef (next h)), (afterCall h p b), (presetDocument p b).
  split; [apply (getBranchProtectionPreset_intact h p (Some b) Hh)|].
  split; [by apply readRuleset_afterCall|].
  split; [done|].
  destruct p; vm_compute; eauto 10.
Qed.

Lemma getBranchProtectionPreset_ruleset_witness :
  reachable initialHeap
  /\ exists config h' doc,
    getBranchProtectionPreset strict (Some "main") initialHeap = (inr config, h')
    /\ readRuleset h' config = Some doc
    /\ include (ref_name (conditions doc)) = ["refs/heads/" +:+ "main"]
    /\ parametersOf doc "required_approving_review_count" = Some (VNum 2)
    /\ parametersOf doc "dismiss_stale_reviews_on_push" = Some (VBool true)
    /\ parametersOf doc "require_last_push_approval" = Some (VBool true)
    /\ parametersOf doc "required_review_thread_resolution" = Some (VBool true)
    /\ is_Some (findRule "non_fast_forward" doc).
Proof.
  split; [apply reachable_load|].
  apply (getBranchProtectionPreset_ruleset initialHeap strict "main" reachable_load).
Defined.

(** C4, the code at the failing input: the first call, for [strict] and
    ['main'], changes the [include] list of the static [strict] template
    from empty to ['refs/heads/main']; after the second call, for [strict]
    and ['develop'], the ruleset the first call returned reads
    ['refs/heads/develop']. *)
Theorem getBranchProtectionPreset_shares_conditions :
  let first := getBranchProtectionPreset strict (Some "main") initialHeap in
  let second := getBranchProtectionPreset strict (Some "develop") (snd first) in
  includeOf (readPreset initialHeap strict) = Some []
  /\ fst first = inr (VRef 28)
  /\ includeOf (readPreset (snd first) strict) = Some ["refs/heads/main"]
  /\ includeOf (readRuleset (snd first) (VRef 28)) = Some ["refs/heads/main"]
  /\ fst second = inr (VRef 30)
  /\ includeOf (readRuleset (snd second) (VRef 28)) = Some ["refs/heads/develop"].
Proof. vm_compute. repeat split. Qed.

(** ** Orchestrator: facts *)

Section Orchestrator.
Context {R : Type} (octokit : Octokit R).
Context `{sodium : Sodium} (random : nat -> entropy).

(** Splits the five parts of [attempt] and [safe]. *)
Ltac run_split := split; [|split; [|split; [|split]]].
Ltac run_done := run_split; auto; try by intros ? [=].

Section Rules.
Context (P : Call -> Prop).

Lemma safe_ret {A} (a : A) (Q : A -> Prop) : Q a -> safe (R:=R) P (ret a) Q.
Proof.
  intros Ha w. exists a, w, []. rewrite app_nil_r. run_done.
Qed.

Lemma attempt_safe {A} (m : M (World R) A) (Q : A -> Prop) :
  safe P m Q -> attempt P m Q.
Proof.
  intros Hm w. destruct (Hm w) as (a & w' & l & Hrun & Hcalls & Hl & Hstore & Ha).
  exists (inr a), w', l. run_done. by intros ? [= <-].
Qed.

Lemma attempt_throw {A} (e : Error) (Q : A -> Prop) : attempt (R:=R) P (throw e) Q.
Proof.
  intros w. exists (inl e), w, []. rewrite app_nil_r. run_done.
Qed.

Lemma attempt_invoke {A} (c : Call) (answer : Answer R A) :
  P c -> attempt P (invoke c answer) (fun _ => True).
Proof.
  intros Hc w. unfold invoke. destruct (answer (platform w)) as [r p].
  eexists r, _, [c]. run_done.
Qed.

Lemma attempt_seal (publicKey secretValue : string) :
  attempt P (seal (R:=R) random publicKey secretValue) (fun _ => True).
Proof.
  intros w. unfold seal. eexists _, _, []. cbn [calls store].
  rewrite app_nil_r. run_done.
Qed.

Lemma attempt_bind {A B} (m : M (World R) A) (k : A -> M (World R) B)
    (Q1 : A -> Prop) (Q2 : B -> Prop) :
  attempt P m Q1 -> (forall a, Q1 a -> attempt P (k a) Q2) -> attempt P (bind m k) Q2.
Proof.
  intros Hm Hk w. destruct (Hm w) as (r & w1 & l1 & Hrun & Hcalls & Hl & Hstore & Hr).
  unfold bind. rewrite Hrun. destruct r as [e|a].
  - exists (inl e), w1, l1. run_done.
  - destruct (Hk a (Hr a eq_refl) w1) as (r2 & w2 & l2 & Hrun2 & Hcalls2 & Hl2 & Hstore2 & Hr2).
    exists r2, w2, (l1 ++ l2)%list. rewrite Hrun2, Hcalls2, Hcalls, app_assoc.
    run_done. by apply Forall_app.
Qed.

Lemma safe_bind {A B} (m : M (World R) A) (k : A -> M (World R) B)
    (Q1 : A -> Prop) (Q2 : B -> Prop) :
  safe P m Q1 -> (forall a, Q1 a -> safe P (k a) Q2) -> safe P (bind m k) Q2.
Proof.
  intros Hm Hk w. destruct (Hm w) as (a & w1 & l1 & Hrun & Hcalls & Hl & Hstore & Ha).
  unfold bind. rewrite Hrun.
  destruct (Hk a Ha w1) as (b & w2 & l2 & Hrun2 & Hcalls2 & Hl2 & Hstore2 & Hb).
  exists b, w2, (l1 ++ l2)%list. rewrite Hrun2, Hcalls2, Hcalls, app_assoc.
  run_done. by apply Forall_app.
Qed.

Lemma safe_tryCatch {A} (body : M (World R) A) (handler : Error -> M (World R) A)
    (Q : A -> Prop) :
  attempt P body Q -> (forall e, safe P (handler e) Q) -> safe P (tryCatch body handler) Q.
Proof.
  intros Hm Hk w. destruct (Hm w) as (r & w1 & l1 & Hrun & Hcalls & Hl & Hstore & Hr).
  unfold tryCatch. rewrite Hrun. destruct r as [e|a].
  - destruct (Hk e w1) as (b & w2 & l2 & Hrun2 & Hcalls2 & Hl2 & Hstore2 & Hb).
    exists b, w2, (l1 ++ l2)%list. rewrite Hrun2, Hcalls2, Hcalls, app_assoc.
    run_done. by apply Forall_app.
  - exists a, w1, l1. run_done.
Qed.

Lemma attempt_tryCatch {A} (body : M (World R) A) (handler : Error -> M (World R) A)
    (Q : A -> Prop) :
  attempt P body Q -> (forall e, attempt P (handler e) Q) ->
  attempt P (tryCatch body handler) Q.
Proof.
  intros Hm Hk w. destruct (Hm w) as (r & w1 & l1 & Hrun & Hcalls & Hl & Hstore & Hr).
  unfold tryCatch. rewrite Hrun. destruct r as [e|a].
  - destruct (Hk e w1) as (b & w2 & l2 & Hrun2 & Hcalls2 & Hl2 & Hstore2 & Hb).
    exists b, w2, (l1 ++ l2)%list. rewrite Hrun2, Hcalls2, Hcalls, app_assoc.
    run_done. by apply Forall_app.
  - exists (inr a), w1, l1. run_done.
Qed.

Lemma safe_forEach {A B} (body : A -> B -> M (World R) B) (xs : list A) (acc : B)
    (Q : B -> Prop) :
  (forall x b, Q b -> safe P (body x b) Q) -> Q acc -> safe P (forEach body xs acc) Q.
Proof.
  intros Hbody. revert acc. induction xs as [|x xs IH]; intros acc Hacc.
  - by apply safe_ret.
  - cbn [forEach]. eapply safe_bind; [by apply Hbody|]. intros b Hb. by apply IH.
Qed.

Lemma safe_weaken {A} (m : M (World R) A) (Q1 Q2 : A -> Prop) :
  safe P m Q1 -> (forall a, Q1 a -> Q2 a) -> safe P m Q2.
Proof.
  intros Hm HQ w. destruct (Hm w) as (r & w1 & l1 & Hrun & Hcalls & Hl & Hstore & Hr).
  exists r, w1, l1. run_done.
Qed.

Lemma attempt_weaken {A} (m : M (World R) A) (Q1 Q2 : A -> Prop) :
  attempt P m Q1 -> (forall a, Q1 a -> Q2 a) -> attempt P m Q2.
Proof.
  intros Hm HQ w. destruct (Hm w) as (r & w1 & l1 & Hrun & Hcalls & Hl & Hstore & Hr).
  exists r, w1, l1. run_done.
Qed.

(** The sub-operations, one by one: none throws, each issues calls of its
    own stage only, and leaves alone the slots of the result that [g] reads
    whenever the updates of its own slots do. *)
Context {T : Type} (g : ProductionalizationResult -> T).

Lemma addTeamPermission_safe owner repo team result :
  (forall c, stageOf c = 1 -> P c) ->
  (forall x r, g (pushTeamPermission x r) = g r) ->
  safe P (addTeamPermission octokit owner repo team result) (fun r => g r = g result).
Proof.
  intros HP Hg. apply safe_tryCatch.
  - eapply attempt_bind; [apply attempt_invoke; by apply HP|].
    intros _ _. apply attempt_safe, safe_ret, Hg.
  - intros e. apply safe_ret, Hg.
Qed.

Lemma addTopics_safe owner repo topics result :
  (forall c, stageOf c = 2 -> P c) ->
  (forall a e r, g (setTopics a e r) = g r) ->
  safe P (addTopics octokit owner repo topics result) (fun r => g r = g result).
Proof.
  intros HP Hg. apply safe_tryCatch.
  - eapply attempt_bind; [apply attempt_invoke; by apply HP|]. intros existing _.
    eapply attempt_bind; [apply attempt_invoke; by apply HP|]. intros _ _.
    apply attempt_safe, safe_ret, Hg.
  - intros e. apply safe_ret, Hg.
Qed.

Lemma resolveReviewers_attempt owner rs :
  (forall c, stageOf c = 3 -> P c) ->
  attempt P (resolveReviewers octokit owner rs) (fun _ => True).
Proof.
  intros HP. induction rs as [|r rs IH]; [by apply attempt_safe, safe_ret|].
  cbn [resolveReviewers]. eapply attempt_bind.
  - unfold resolveReviewer. destruct (type r).
    + eapply attempt_bind; [apply attempt_invoke; by apply HP|].
      intros id _. by apply attempt_safe, (safe_ret _ (fun _ => True)).
    + eapply attempt_bind; [apply attempt_invoke; by apply HP|].
      intros id _. by apply attempt_safe, (safe_ret _ (fun _ => True)).
  - intros resolved _. eapply attempt_bind; [apply IH|].
    intros others _. by apply attempt_safe, safe_ret.
Qed.

Lemma createEnvironment_safe owner repo env result :
  (forall c, stageOf c = 3 -> P c) ->
  (forall x r, g (pushEnvironmentCreated x r) = g r) ->
  (forall x r, g (pushEnvironmentError x r) = g r) ->
  safe P (createEnvironment octokit owner repo env result) (fun r => g r = g result).
Proof.
  intros HP Hg1 Hg2. apply safe_tryCatch.
  - eapply attempt_bind with (Q1 := fun _ => True).
    + destruct (reviewers env) as [rs|]; [|by apply attempt_safe, safe_ret].
      eapply attempt_bind; [by apply resolveReviewers_attempt|].
      intros ids _. by apply attempt_safe, safe_ret.
    + intros resolved _.
      eapply attempt_bind; [apply attempt_invoke; by apply HP|]. intros _ _.
      apply attempt_safe, safe_ret, Hg1.
  - intros e. apply safe_ret, Hg2.
Qed.

Lemma setEnvironmentVariable_safe owner repo environment v result :
  (forall c, stageOf c = 4 -> P c) ->
  (forall r, g (countVariable r) = g r) ->
  (forall x r, g (pushVariableError x r) = g r) ->
  safe P (setEnvironmentVariable octokit owner repo environment v result)
    (fun r => g r = g result).
Proof.
  intros HP Hg1 Hg2. apply safe_tryCatch.
  - eapply attempt_bind with (Q1 := fun _ => True).
    + apply attempt_tryCatch; [apply attempt_invoke; by apply HP|].
      intros e. destruct (alreadyExists e); [|apply attempt_throw].
      apply attempt_invoke. by apply HP.
    + intros _ _. apply attempt_safe, safe_ret, Hg1.
  - intros e. apply safe_ret, Hg2.
Qed.

Lemma setEnvironmentVariables_safe owner repo configured block result :
  (forall c, stageOf c = 4 -> P c) ->
  (forall r, g (countVariable r) = g r) ->
  (forall x r, g (pushVariableError x r) = g r) ->
  safe P (setEnvironmentVariables octokit owner repo configured block result)
    (fun r => g r = g result).
Proof.
  intros HP Hg1 Hg2. unfold setEnvironmentVariables.
  case_bool_decide; [|by apply safe_ret].
  apply safe_forEach; [|done]. intros v r Hr.
  eapply safe_weaken; [by apply setEnvironmentVariable_safe|].
  intros r' Hr'. simpl in Hr'. congruence.
Qed.

Lemma getBranchProtectionPreset_attempt preset targetBranch :
  attempt (R:=R) P (onStore (getBranchProtectionPreset preset targetBranch))
    (fun _ => True).
Proof.
  intros w. unfold onStore.
  destruct (getBranchProtectionPreset preset targetBranch (store w)) as [r h] eqn:Hcall.
  exists r, {| platform := platform w; calls := calls w; store := h; draws := draws w |}, [].
  cbn [calls store]. rewrite app_nil_r. run_done.
  intros Hh. rewrite (getBranchProtectionPreset_intact _ _ _ Hh) in Hcall.
  injection Hcall as _ <-. by apply afterCall_intact.
Qed.

Lemma applyBranchProtection_safe owner repo preset targetBranch result :
  (forall c, stageOf c = 5 -> P c) ->
  (forall a e r, g (setBranchProtection a e r) = g r) ->
  safe P (applyBranchProtection octokit owner repo preset targetBranch result)
    (fun r => g r = g result).
Proof.
  intros HP Hg. apply safe_tryCatch.
  - eapply attempt_bind; [apply getBranchProtectionPreset_attempt|]. intros ruleset _.
    eapply attempt_bind with (Q1 := fun _ => True).
    + intros w. destruct (readRuleset (store w) ruleset) as [document|].
      * exists (inr document), w, []. rewrite app_nil_r. run_done.
      * eexists (inl _), w, []. rewrite app_nil_r. run_done.
    + intros document _.
      eapply attempt_bind; [apply attempt_invoke; by apply HP|]. intros _ _.
      apply attempt_safe, safe_ret, Hg.
  - intros e. apply safe_ret, Hg.
Qed.

Lemma createSecret_safe owner repo key_id key secret result :
  (forall c, stageOf c = 6 -> P c) ->
  (forall r, g (countSecret r) = g r) ->
  (forall x r, g (pushSecretError x r) = g r) ->
  safe P (createSecret octokit random owner repo key_id key secret result)
    (fun r => g r = g result).
Proof.
  intros HP Hg1 Hg2. apply safe_tryCatch.
  - eapply attempt_bind; [apply attempt_seal|]. intros encrypted _.
    eapply attempt_bind; [apply attempt_invoke; by apply HP|]. intros _ _.
    apply attempt_safe, safe_ret, Hg1.
  - intros e. apply safe_ret, Hg2.
Qed.

Lemma createSecrets_safe owner repo secrets result :
  (forall c, stageOf c = 6 -> P c) ->
  (forall r, g (countSecret r) = g r) ->
  (forall x r, g (pushSecretError x r) = g r) ->
  safe P (createSecrets octokit random owner repo secrets result)
    (fun r => g r = g result).
Proof.
  intros HP Hg1 Hg2. unfold createSecrets.
  eapply safe_bind with (Q1 := fun _ => True).
  - apply safe_tryCatch; [|intros e; by apply safe_ret].
    eapply attempt_bind; [apply attempt_invoke; by apply HP|].
    intros publicKey _. by apply attempt_safe, safe_ret.
  - intros [[key_id key]|] _; [|by apply safe_ret].
    apply safe_forEach; [|done]. intros secret r Hr.
    eapply safe_weaken; [by apply createSecret_safe|].
    intros r' Hr'. simpl in Hr'. congruence.
Qed.

Lemma whenPresent_Some {A} (x : A)
    (stage : A -> ProductionalizationResult -> M (World R) ProductionalizationResult)
    result :
  whenPresent (Some x) stage result = stage x result.
Proof. reflexivity. Qed.

Lemma whenPresent_safe {A} (field : option A)
    (stage : A -> ProductionalizationResult -> M (World R) ProductionalizationResult)
    result :
  (forall x, safe P (stage x result) (fun r => g r = g result)) ->
  safe P (whenPresent field stage result) (fun r => g r = g result).
Proof. intros Hstage. destruct field; [apply Hstage|by apply safe_ret]. Qed.

Lemma forEach_safe {A}
    (body : A -> ProductionalizationResult -> M (World R) ProductionalizationResult)
    xs result :
  (forall x r, safe P (body x r) (fun r' => g r' = g r)) ->
  safe P (forEach body xs result) (fun r => g r = g result).
Proof.
  intros Hbody. apply safe_forEach; [|done]. intros x r Hr.
  eapply safe_weaken; [apply Hbody|]. intros r' Hr'. simpl in Hr'. congruence.
Qed.

Lemma laterStages_safe owner repo config result :
  (forall c, 2 <= stageOf c -> P c) ->
  (forall a e r, g (setTopics a e r) = g r) ->
  (forall x r, g (pushEnvironmentCreated x r) = g r) ->
  (forall x r, g (pushEnvironmentError x r) = g r) ->
  (forall r, g (countVariable r) = g r) ->
  (forall x r, g (pushVariableError x r) = g r) ->
  (forall a e r, g (setBranchProtection a e r) = g r) ->
  (forall r, g (countSecret r) = g r) ->
  (forall x r, g (pushSecretError x r) = g r) ->
  safe P (laterStages octokit random owner repo config result)
    (fun r => g r = g result).
Proof.
  intros HP Htopics Hcreated Herror Hcount Hvar Hbranch Hsecret Hserr.
  unfold laterStages.
  eapply safe_bind.
  { apply whenPresent_safe. intros topics. apply addTopics_safe; [|done].
    intros c Hc. apply HP. lia. }
  intros r2 Hr2. eapply safe_bind.
  { apply whenPresent_safe. intros envs. apply forEach_safe. intros env r.
    apply createEnvironment_safe; [|done..]. intros c Hc. apply HP. lia. }
  intros r3 Hr3. eapply safe_bind.
  { apply whenPresent_safe. intros blocks. apply forEach_safe. intros block r.
    apply setEnvironmentVariables_safe; [|done..]. intros c Hc. apply HP. lia. }
  intros r4 Hr4. eapply safe_bind.
  { apply whenPresent_safe. intros preset.
    apply applyBranchProtection_safe; [|done]. intros c Hc. apply HP. lia. }
  intros r5 Hr5. eapply safe_weaken.
  { apply whenPresent_safe. intros secrets.
    apply createSecrets_safe; [|done..]. intros c Hc. apply HP. lia. }
  intros r6 Hr6. simpl in *. congruence.
Qed.

End Rules.

(** *** The first call of a computation *)







(** *** Environments and variables: what the result accounts for *)







(** *** Team permissions: the exact run *)



(** *** The first call of the later sub-operations *)

Lemma safe_run {A} (P : Call -> Prop) (m : M (World R) A) (Q : A -> Prop) w r w' :
  safe P m Q -> m w = (r, w') ->
  exists a l, r = inr a /\ calls w' = (calls w ++ l)%list /\ Forall P l
    /\ (catalogIntact (store w) -> catalogIntact (store w')) /\ Q a.
Proof.
  intros Hm Hrun. destruct (Hm w) as (a & w1 & l & Hrun' & Hcalls & Hl & Hstore & Ha).
  rewrite Hrun in Hrun'. injection Hrun' as -> ->. eauto 10.
Qed.




(** *** The later sub-operations after the team permissions *)










Lemma earlier_stage_call (c : Call) :
  stageOf c <= 5 -> isSecretUpload c = false /\ isPublicKeyFetch c = false.
Proof. destruct c; cbn; intros; (done || lia). Qed.

(** C1: for the empty configuration the run returns, without an exception and
    without a call to the platform, the result in which every list is empty,
    every count is 0 and every flag is false. *)
Theorem productionalizeRepository_emptyConfig (owner repo : string) (w : World R) :
  exists result,
    productionalizeRepository octokit random owner repo emptyConfig w = (inr result, w)
    /\ teamPermissions result = []
    /\ environmentsCreated result = []
    /\ environmentErrors result = []
    /\ variableErrors result = []
    /\ secretErrors result = []
    /\ variablesCreated result = 0
    /\ secretsCreated result = 0
    /\ topicsAdded result = false
    /\ branchProtectionCreated result = false
    /\ topicsError result = None
    /\ branchProtectionError result = None.
Proof. exists emptyResult. repeat split. Qed.


(** C3: with secrets configured, when the fetch of the public key fails,
    in the state the platform is in when the run makes it, which is the
    state the earlier sub-operations leave, the run still returns, with
    [secretsCreated] 0 and [secretErrors] empty; the fetch is the last call of
    the run and the only call to the secrets interface: no secret is
    uploaded. *)
Theorem productionalizeRepository_publicKey_failure (owner repo : string)
    (config : ProductionalizationConfig) (secrets : list RepositorySecret)
    (w : World R) (e : Error) (p' : R) :
  cfg_secrets config = Some secrets ->
  secrets <> [] ->
  let reached :=
    snd (productionalizeRepository octokit random owner repo (withoutSecrets config) w) in
  getRepoPublicKey octokit owner repo (platform reached) = (inl e, p') ->
  exists result w' earlier,
    productionalizeRepository octokit random owner repo config w = (inr result, w')
    /\ secretsCreated result = 0
    /\ secretErrors result = []
    /\ calls reached = (calls w ++ earlier)%list
    /\ calls w' = (calls w ++ earlier ++ [GetRepoPublicKey owner repo])%list
    /\ platform w' = p'
    /\ Forall (fun c => isSecretUpload c = false /\ isPublicKeyFetch c = false) earlier.
Proof.
  intros Hsecrets _. cbv zeta.
  set (P := fun c => isSecretUpload c = false /\ isPublicKeyFetch c = false).
  set (g := fun r => (secretsCreated r, secretErrors r)).
  assert (forall k, k <= 5 -> forall c, stageOf c = k -> P c) as HP.
  { intros k Hk c Hc. apply earlier_stage_call. lia. }
  destruct (whenPresent_safe P g (cfg_teamPermissions config)
              (forEach (addTeamPermission octokit owner repo)) emptyResult
              (fun x => forEach_safe P g _ x emptyResult
                          (fun team r => addTeamPermission_safe P g owner repo team r
                             (HP 1 ltac:(lia)) (fun _ _ => eq_refl))) w)
    as (r1 & w1 & l1 & Hrun1 & Hcalls1 & Hl1 & _ & Hg1).
  destruct (whenPresent_safe P g (cfg_topics config) (addTopics octokit owner repo) r1
              (fun x => addTopics_safe P g owner repo x r1 (HP 2 ltac:(lia))
                          (fun _ _ _ => eq_refl)) w1)
    as (r2 & w2 & l2 & Hrun2 & Hcalls2 & Hl2 & _ & Hg2).
  destruct (whenPresent_safe P g (cfg_environments config)
              (forEach (createEnvironment octokit owner repo)) r2
              (fun x => forEach_safe P g _ x r2
                          (fun env r => createEnvironment_safe P g owner repo env r
                             (HP 3 ltac:(lia)) (fun _ _ => eq_refl)
                             (fun _ _ => eq_refl))) w2)
    as (r3 & w3 & l3 & Hrun3 & Hcalls3 & Hl3 & _ & Hg3).
  destruct (whenPresent_safe P g (cfg_environmentVariables config)
              (forEach (setEnvironmentVariables octokit owner repo
                          (env_name <$> default [] (cfg_environments config)))) r3
              (fun x => forEach_safe P g _ x r3
                          (fun block r =>
                             setEnvironmentVariables_safe P g owner repo _ block r
                               (HP 4 ltac:(lia)) (fun _ => eq_refl)
                               (fun _ _ => eq_refl))) w3)
    as (r4 & w4 & l4 & Hrun4 & Hcalls4 & Hl4 & _ & Hg4).
  destruct (whenPresent_safe P g (cfg_branchProtectionPreset config)
              (fun preset => applyBranchProtection octokit owner repo preset
                               (cfg_branchProtectionTargetBranch config)) r4
              (fun x => applyBranchProtection_safe P g owner repo x _ r4
                          (HP 5 ltac:(lia)) (fun _ _ _ => eq_refl)) w4)
    as (r5 & w5 & l5 & Hrun5 & Hcalls5 & Hl5 & _ & Hg5).
  assert (productionalizeRepository octokit random owner repo (withoutSecrets config) w =
          (inr r5, w5)) as ->.
  { unfold productionalizeRepository, laterStages.
    cbn [withoutSecrets cfg_teamPermissions cfg_topics cfg_environments
           cfg_environmentVariables cfg_branchProtectionPreset
           cfg_branchProtectionTargetBranch cfg_secrets].
    rewrite (bind_inr _ _ _ _ _ Hrun1), (bind_inr _ _ _ _ _ Hrun2),
      (bind_inr _ _ _ _ _ Hrun3), (bind_inr _ _ _ _ _ Hrun4),
      (bind_inr _ _ _ _ _ Hrun5).
    reflexivity. }
  cbn [snd]. intros Hfail.
  unfold productionalizeRepository, laterStages.
  rewrite (bind_inr _ _ _ _ _ Hrun1), (bind_inr _ _ _ _ _ Hrun2),
    (bind_inr _ _ _ _ _ Hrun3), (bind_inr _ _ _ _ _ Hrun4),
    (bind_inr _ _ _ _ _ Hrun5).
  rewrite Hsecrets, whenPresent_Some.
  unfold createSecrets, bind at 1, tryCatch, bind at 1, invoke.
  rewrite Hfail.
  exists r5. eexists. exists (l1 ++ l2 ++ l3 ++ l4 ++ l5)%list.
  split; [reflexivity|].
  assert (g r5 = g emptyResult) as [= Hcount Herrors].
  { rewrite Hg5, Hg4, Hg3, Hg2, Hg1. reflexivity. }
  split; [exact Hcount|]. split; [exact Herrors|].
  assert (calls w5 = (calls w ++ l1 ++ l2 ++ l3 ++ l4 ++ l5)%list) as Hcalls.
  { rewrite Hcalls5, Hcalls4, Hcalls3, Hcalls2, Hcalls1, <- !app_assoc. reflexivity. }
  split; [exact Hcalls|]. split.
  { cbn [calls]. rewrite Hcalls, <- !app_assoc. reflexivity. }
  split; [reflexivity|].
  repeat (apply Forall_app; split); assumption.
Qed.

End Orchestrator.


Lemma productionalizeRepository_publicKey_failure_witness :
  let reached :=
    snd (productionalizeRepository scriptedOctokit (sodium := plainSodium) (fun n => n)
           "test-org" "test-repo" (withoutSecrets twoTeamsConfig) freshWorld) in
  cfg_secrets twoTeamsConfig =
    Some [ {| secret_name := "SECRET"; secret_value := "value" |} ]
  /\ [ {| secret_name := "SECRET"; secret_value := "value" |} ] <> []
  /\ getRepoPublicKey scriptedOctokit "test-org" "test-repo" (platform reached) =
     (inl (mkError "Access denied" false), 8)
  /\ getRepoPublicKey scriptedOctokit "test-org" "test-repo" 0 =
     (inr ("key-id", "a2V5"), 1)
  /\ exists result w' earlier,
      productionalizeRepository scriptedOctokit (sodium := plainSodium) (fun n => n)
        "test-org" "test-repo" twoTeamsConfig freshWorld = (inr result, w')
      /\ secretsCreated result = 0
      /\ secretErrors result = []
      /\ calls reached = (calls freshWorld ++ earlier)%list
      /\ calls w' =
         (calls freshWorld ++ earlier ++ [GetRepoPublicKey "test-org" "test-repo"])%list
      /\ platform w' = 8
      /\ Forall (fun c => isSecretUpload c = false /\ isPublicKeyFetch c = false)
           earlier.
Proof.
  cbv zeta.
  assert (getRepoPublicKey scriptedOctokit "test-org" "test-repo"
            (platform
               (snd (productionalizeRepository scriptedOctokit (sodium := plainSodium)
                       (fun n => n) "test-org" "test-repo"
                       (withoutSecrets twoTeamsConfig) freshWorld))) =
          (inl (mkError "Access denied" false), 8)) as Hfail
    by (vm_compute; reflexivity).
  split; [reflexivity|]. split; [discriminate|]. split; [exact Hfail|].
  split; [reflexivity|].
  apply (productionalizeRepository_publicKey_failure scriptedOctokit
           (sodium := plainSodium) (fun n => n) "test-org" "test-repo" twoTeamsConfig
           [ {| secret_name := "SECRET"; secret_value := "value" |} ] freshWorld
           _ _ eq_refl ltac:(discriminate) Hfail).
Defined.

(** ** Runner: facts *)

Section RunnerFacts.
Import Main Constants.
Context {P : Type} (inputs : gmap string string) (parser : InputParser).

Lemma bind_inv {E S A B} (m : Throws E S A) (k : A -> Throws E S B) s b s' :
  bind m k s = (inr b, s') ->
  exists a s1, m s = (inr a, s1) /\ k a s1 = (inr b, s').
Proof.
  unfold bind. destruct (m s) as [[e|a] s1]; [discriminate|]. eauto.
Qed.

Lemma ret_inv {E S A} (a b : A) (s s' : S) :
  ret (E:=E) a s = (inr b, s') -> a = b /\ s = s'.
Proof. by intros [= -> ->]. Qed.

Lemma tryCatch_rethrow_inv {S A} (body : M S A) (f : Error -> Error) s a s' :
  tryCatch body (fun e => throw (f e)) s = (inr a, s') -> body s = (inr a, s').
Proof.
  unfold tryCatch, throw. by destruct (body s) as [[e|a'] s1].
Qed.

Lemma getInput_inv name required (s s' : Run P) v :
  getInput inputs name required s = (inr v, s') ->
  v = trim (default "" (inputs !! name)) /\ s' = s.
Proof.
  unfold getInput. destruct (required && _); [discriminate|]. by intros [= <- <-].
Qed.

(** Decomposes a successful run of a sequence of binds. *)
Ltac invert_run H :=
  repeat match type of H with
    | bind (getInput _ _ _) _ _ = (inr _, _) =>
        let v := fresh "v" in let s := fresh "s" in
        let Hg := fresh "Hg" in
        apply bind_inv in H; destruct H as (v & s & Hg & H);
        apply getInput_inv in Hg as [-> ->]
    end.

Lemma getInitializer_inv (r0 r1 : Run P) init :
  getInitializer inputs parser r0 = (inr init, r1) ->
  defaultBranch (input init) =
  Some (orElse (trim (default "" (inputs !! "default-branch"))) "main")
  /\ (trim (default "" (inputs !! "productionalize")) <> "true" ->
      productionalize (input init) = None
      /\ productionalizationConfig (input init) = None /\ r1 = r0)
  /\ (trim (default "" (inputs !! "productionalize")) = "true" ->
      productionalize (input init) = Some true
      /\ exists config,
          productionalizationConfig (input init) = Some config
          /\ (forall preset, cfg_branchProtectionPreset config = Some preset ->
                cfg_branchProtectionTargetBranch config =
                Some (orElse
                        (trim (default "" (inputs !! "branch-protection-target-branch")))
                        DEFAULT_BRANCH_PROTECTION_TARGET))).
Proof.
  intros H. unfold getInitializer in H. apply tryCatch_rethrow_inv in H.
  invert_run H. cbv zeta in H.
  apply bind_inv in H as (input' & s & H & [<- <-]%ret_inv). cbn [input].
  unfold DEFAULT_PRODUCTIONALIZE in H. rewrite orb_false_r in H.
  destruct (String.eqb_spec (trim (default "" (inputs !! "productionalize"))) "true")
    as [Htrue|Hfalse].
  - split; [|split; [done|intros _]].
    all: apply bind_inv in H as (? & ? & [-> ->]%getInput_inv & H).
    all: apply bind_inv in H as (teams_ & ? & _ & H).
    all: apply bind_inv in H as (? & ? & [-> ->]%getInput_inv & H).
    all: apply bind_inv in H as (topics_ & ? & _ & H).
    all: apply bind_inv in H as (? & ? & [-> ->]%getInput_inv & H).
    all: apply bind_inv in H as (envs_ & ? & _ & H).
    all: apply bind_inv in H as (? & ? & [-> ->]%getInput_inv & H).
    all: apply bind_inv in H as (vars_ & ? & _ & H).
    all: apply bind_inv in H as (bpInput & ? & [-> ->]%getInput_inv & H).
    all: apply bind_inv in H as (bp & ? & Hbp & H).
    all: apply bind_inv in H as (? & ? & [-> ->]%getInput_inv & H).
    all: apply bind_inv in H as (secrets_ & ? & _ & H).
    all: apply ret_inv in H as [<- _]; cbn.
    + done.
    + split; [done|]. eexists. split; [done|]. cbn. intros preset Hpreset.
      destruct (String.eqb _ "") in Hbp.
      * apply ret_inv in Hbp as [<- _]. discriminate.
      * apply bind_inv in Hbp as (preset' & ? & _ & Hbp).
        apply bind_inv in Hbp as (tb & ? & [-> ->]%getInput_inv & Hbp).
        by apply ret_inv in Hbp as [<- _].
  - apply ret_inv in H as [<- <-]. cbn. split; [done|]. split; [done|].
    intros ?. done.
Qed.

(** When the flag is not ['true'] the initialization leaves the run as it
    found it: no parser is called. *)
Lemma getInput_state name required (s : Run P) :
  snd (getInput inputs name required s) = s.
Proof. unfold getInput. by destruct (required && _). Qed.

Lemma getInput_run name required (s : Run P) :
  (exists e, getInput inputs name required s = (inl e, s))
  \/ getInput inputs name required s = (inr (trim (default "" (inputs !! name))), s).
Proof. unfold getInput. destruct (required && _); eauto. Qed.

Lemma bind_getInput {A} name required (k : string -> M (Run P) A) (s : Run P) :
  (exists e, bind (getInput inputs name required) k s = (inl e, s))
  \/ bind (getInput inputs name required) k s =
     k (trim (default "" (inputs !! name))) s.
Proof.
  unfold bind. destruct (getInput_run name required s) as [[e ->]| ->]; eauto.
Qed.

Lemma getInitializer_skips (r0 : Run P) :
  trim (default "" (inputs !! "productionalize")) <> "true" ->
  snd (getInitializer inputs parser r0) = r0.
Proof.
  intros Hflag. unfold getInitializer, tryCatch.
  repeat match goal with
    | |- context [bind (getInput inputs ?n ?q) ?k r0] =>
        destruct (bind_getInput n q k r0) as [[e ->]| ->]; [reflexivity|]
    end.
  cbv zeta. unfold DEFAULT_PRODUCTIONALIZE. rewrite orb_false_r.
  destruct (String.eqb_spec (trim (default "" (inputs !! "productionalize"))) "true");
    [done|reflexivity].
Qed.

Context (createRepository : RepositoryInput -> P -> (Thrown + RepositoryResult) * P).
Context (productionalizeRepository :
           string -> option string -> ProductionalizationConfig ->
           P -> (Thrown + ProductionalizationResult) * P).
Context (stringify : ProductionalizationResult -> string).
Context (exponential : Z -> string).

(** C10, as amended: the pass is gated by the comparison with ['true'] of
    the input as [core.getInput] returns it, with the white space at both
    ends removed.  For every input that is not ['true'] once trimmed the run
    has no parser call, no call of [productionalizeRepository] and no
    [productionalization-status] output.  For an input that is, once the
    initialization and the creation of the repository have succeeded,
    [productionalizeRepository] is called with the parsed configuration, and
    its result is written to the status output. *)
Theorem run_productionalize_gate (p : P) :
  let flag := trim (default "" (inputs !! "productionalize")) in
  let final :=
    snd (run inputs parser createRepository productionalizeRepository stringify
           exponential (startRun p)) in
  (flag <> "true" ->
   Forall (fun e => isPassEvent e = false) (events final))
  /\ (flag = "true" ->
      forall init r1 result p2,
        getInitializer inputs parser (startRun p) = (inr init, r1) ->
        createRepository (input init) (remote r1) = (inr result, p2) ->
        exists config,
          productionalizationConfig (input init) = Some config
          /\ let owner := default "" (split "/" (full_name result) !! 0) in
             let repo := split "/" (full_name result) !! 1 in
             ProductionalizeRepository owner repo config ∈ events final
             /\ forall prodResult p3,
                  productionalizeRepository owner repo config p2 =
                  (inr prodResult, p3) ->
                  SetOutput "productionalization-status" (stringify prodResult)
                    ∈ events final).
Proof.
  cbv zeta. split.
  - intros Hflag. unfold run, tryCatch, bind at 1, await.
    pose proof (getInitializer_skips (startRun p) Hflag) as Hskip.
    destruct (getInitializer inputs parser (startRun p)) as [[e|init] r1] eqn:Hinit;
      cbn [snd] in Hskip; subst r1.
    { cbn. repeat constructor. }
    destruct (getInitializer_inv _ _ _ Hinit) as (_ & Hoff & _).
    destruct (Hoff Hflag) as (Hnone & _ & _).
    unfold service, emit, modify, bind. cbn [remote events startRun].
    destruct (createRepository (input init) p) as [[[e|]|result] p2].
    { cbn. repeat constructor. }
    { cbn. repeat constructor. }
    rewrite Hnone. cbn. repeat constructor.
  - intros Hflag init r1 result p2 Hinit Hcreate.
    destruct (getInitializer_inv _ _ _ Hinit) as (_ & _ & Hon).
    destruct (Hon Hflag) as (Hsome & config & Hconfig & _).
    exists config. split; [exact Hconfig|]. cbv zeta.
    remember (snd (run inputs parser createRepository productionalizeRepository
                     stringify exponential (startRun p))) as final eqn:Hfinal.
    unfold run, tryCatch, bind at 1, await in Hfinal. rewrite Hinit in Hfinal.
    unfold service, emit, modify, bind in Hfinal. cbn [remote events] in Hfinal.
    rewrite Hcreate, Hsome, Hconfig in Hfinal. cbn [remote events ret] in Hfinal.
    destruct (productionalizeRepository _ _ config p2) as [[[e|]|prodResult] p3];
      cbn [snd events] in Hfinal; subst final; cbn [events].
    + split; [|discriminate].
      rewrite !elem_of_app, !list_elem_of_singleton. auto 10.
    + split; [|discriminate].
      rewrite !elem_of_app, !list_elem_of_singleton. auto 10.
    + split.
      * rewrite !elem_of_app, !list_elem_of_singleton. auto 10.
      * intros ? ? [= <- <-]. rewrite !elem_of_app, !list_elem_of_singleton. auto 10.
Qed.

(** C9: when both the [default-branch] and the
    [branch-protection-target-branch] inputs are absent and a preset is
    configured, the default branch of the repository is ['main'], the target
    branch of the ruleset is ['master'], and the ruleset the catalog returns
    for the configuration has the single include ref ['refs/heads/master'],
    which is not the ref of the default branch. *)
Theorem getInitializer_default_branches (r0 r1 : Run P) (init : FoundryInitializer)
    (config : ProductionalizationConfig) (preset : BranchProtectionPreset) :
  default "" (inputs !! "default-branch") = "" ->
  default "" (inputs !! "branch-protection-target-branch") = "" ->
  getInitializer inputs parser r0 = (inr init, r1) ->
  productionalizationConfig (input init) = Some config ->
  cfg_branchProtectionPreset config = Some preset ->
  defaultBranch (input init) = Some "main"
  /\ cfg_branchProtectionTargetBranch config = Some "master"
  /\ forall h, reachable h ->
       exists ruleset h' doc,
         getBranchProtectionPreset preset (cfg_branchProtectionTargetBranch config) h =
         (inr ruleset, h')
         /\ readRuleset h' ruleset = Some doc
         /\ include (ref_name (conditions doc)) = ["refs/heads/master"]
         /\ "refs/heads/main" ∉ include (ref_name (conditions doc)).
Proof.
  intros Hdefault Htarget Hinit Hconfig Hpreset.
  destruct (getInitializer_inv _ _ _ Hinit) as (Hbranch & Hoff & Hon).
  rewrite Hdefault in Hbranch.
  assert (cfg_branchProtectionTargetBranch config = Some "master") as Htb.
  { destruct (String.eqb_spec (trim (default "" (inputs !! "productionalize"))) "true")
      as [Hflag|Hflag].
    - destruct (Hon Hflag) as (_ & config' & Hconfig' & Htb).
      rewrite Hconfig in Hconfig'. injection Hconfig' as <-.
      rewrite (Htb preset Hpreset), Htarget. reflexivity.
    - destruct (Hoff Hflag) as (_ & Hnone & _). congruence. }
  split; [exact Hbranch|]. split; [exact Htb|].
  intros h Hh%reachable_intact. rewrite Htb.
  exists (VRef (next h)), (afterCall h preset "master"), (presetDocument preset "master").
  split; [apply (getBranchProtectionPreset_intact h preset (Some "master") Hh)|].
  split; [by apply readRuleset_afterCall|]. split; [reflexivity|].
  change (include (ref_name (conditions (presetDocument preset "master"))))
    with ["refs/heads/" +:+ "master"].
  intros Hin%list_elem_of_singleton. discriminate.
Qed.

End RunnerFacts.

Lemma run_productionalize_gate_witness :
  let off :=
    Main.run (defaultsInputs "True") simpleParser createsRepository
      productionalizesNothing (fun _ => "{}") noExponent (startRun 0) in
  let on :=
    Main.run paddedInputs simpleParser createsRepository
      productionalizesNothing (fun _ => "{}") noExponent (startRun 0) in
  Main.trim (default "" (defaultsInputs "True" !! "productionalize")) <> "true"
  /\ Main.trim (default "" (paddedInputs !! "productionalize")) = "true"
  /\ Forall (fun e => isPassEvent e = false) (Main.events (snd off))
  /\ exists config,
      Main.ProductionalizeRepository "owner" (Some "new-repo") config
        ∈ Main.events (snd on)
      /\ Main.SetOutput "productionalization-status" "{}" ∈ Main.events (snd on).
Proof.
  cbv zeta.
  assert (Main.trim (default "" (defaultsInputs "True" !! "productionalize")) <> "true")
    as Hoff by (vm_compute; discriminate).
  assert (Main.trim (default "" (paddedInputs !! "productionalize")) = "true")
    as Hon by (vm_compute; reflexivity).
  split; [exact Hoff|]. split; [exact Hon|]. split.
  - apply (proj1 (run_productionalize_gate (defaultsInputs "True") simpleParser
                    createsRepository productionalizesNothing (fun _ => "{}")
                    noExponent 0)).
    exact Hoff.
  - destruct (Main.getInitializer paddedInputs simpleParser (startRun 0))
      as [[e|init] r1] eqn:Hinit; [vm_compute in Hinit; discriminate|].
    destruct (proj2 (run_productionalize_gate paddedInputs simpleParser
                       createsRepository productionalizesNothing (fun _ => "{}")
                       noExponent 0)
                Hon init r1 _ _ Hinit eq_refl)
      as (config & _ & Hcall & Hstatus).
    exists config.
    assert (repo_name (Main.input init) = "new-repo") as Hname.
    { vm_compute in Hinit. by injection Hinit as <- _. }
    cbn [createsRepository full_name] in Hcall, Hstatus.
    rewrite Hname in Hcall, Hstatus.
    split; [exact Hcall|]. exact (Hstatus emptyResult _ eq_refl).
Defined.

(** C10, counterexample: the input [' true '] is not the string ['true'],
    and yet the run parses the productionalization inputs, calls
    [productionalizeRepository] and sets the status output. *)
Lemma run_productionalize_padded :
  let final :=
    snd (Main.run paddedInputs simpleParser createsRepository productionalizesNothing
           (fun _ => "{}") noExponent (startRun 0)) in
  paddedInputs !! "productionalize" = Some " true "
  /\ " true " <> "true"
  /\ existsb Main.isParse (Main.events final) = true
  /\ existsb Main.isProductionalize (Main.events final) = true
  /\ existsb Main.isStatusOutput (Main.events final) = true.
Proof. vm_compute. repeat split; discriminate || reflexivity. Qed.

Lemma getInitializer_default_branches_witness :
  exists init r1 config,
    default "" (defaultsInputs "true" !! "default-branch") = ""
    /\ default "" (defaultsInputs "true" !! "branch-protection-target-branch") = ""
    /\ Main.getInitializer (defaultsInputs "true") simpleParser (startRun 0) =
       (inr init, r1)
    /\ productionalizationConfig (Main.input init) = Some config
    /\ cfg_branchProtectionPreset config = Some strict
    /\ defaultBranch (Main.input init) = Some "main"
    /\ cfg_branchProtectionTargetBranch config = Some "master"
    /\ forall h, reachable h ->
         exists ruleset h' doc,
           getBranchProtectionPreset strict (cfg_branchProtectionTargetBranch config) h =
           (inr ruleset, h')
           /\ readRuleset h' ruleset = Some doc
           /\ include (ref_name (conditions doc)) = ["refs/heads/master"]
           /\ "refs/heads/main" ∉ include (ref_name (conditions doc)).
Proof.
  destruct (Main.getInitializer (defaultsInputs "true") simpleParser (startRun 0))
    as [[e|init] r1] eqn:Hinit; [vm_compute in Hinit; discriminate|].
  assert (exists config,
            productionalizationConfig (Main.input init) = Some config
            /\ cfg_branchProtectionPreset config = Some strict)
    as (config & Hconfig & Hpreset).
  { vm_compute in Hinit. injection Hinit as <- _. eexists. split; reflexivity. }
  exists init, r1, config.
  split; [reflexivity|]. split; [reflexivity|]. split; [reflexivity|].
  split; [exact Hconfig|]. split; [exact Hpreset|].
  exact (getInitializer_default_branches (defaultsInputs "true") simpleParser
           (startRun 0) r1 init config strict eq_refl eq_refl Hinit Hconfig Hpreset).
Defined.

(** ** Branch protection presets: sharing between a template and its copies *)

Lemma mapM_readString bs : mapM readString (VStr <$> bs) = Some bs.
Proof. induction bs as [|b bs IH]; [done|]. cbn. by rewrite IH. Qed.

Lemma readRuleset_shape h l p props n t e incl bs :
  catalogIntact h ->
  cells h !! l = Some (CObject props) ->
  props !! "name" = Some (VStr n) ->
  props !! "target" = Some (VStr t) ->
  props !! "enforcement" = Some (VStr e) ->
  props !! "conditions" = Some (VRef (templateLoc p - 5)) ->
  props !! "rules" = Some (VRef (templateLoc p - 1)) ->
  cells h !! refNameLoc p = Some (CObject (refNameProps p (VRef incl))) ->
  cells h !! incl = Some (CArray (VStr <$> bs)) ->
  readRuleset h (VRef l) =
  Some {| name := n; target := t; enforcement := e;
          conditions := {| ref_name := {| include := bs; exclude := [] |} |};
          rules := presetRules p |}.
Proof.
  intros Hh Hl Hname Htarget Henf Hcond Hrules Hrn Hincl.
  pose proof (templateLoc_bounds p) as Hp.
  destruct (refNameProps_lookup p (VRef incl)) as [Hinc Hexc].
  unfold readRuleset.
  rewrite (readObject_object _ _ _ Hl). cbn [mbind option_bind].
  rewrite Hname, Htarget, Henf, Hcond, Hrules. cbn [mbind option_bind readString].
  assert (readConditions h (VRef (templateLoc p - 5)) =
          Some {| ref_name := {| include := bs; exclude := [] |} |}) as ->.
  { unfold readConditions.
    rewrite (readObject_object _ _ {["ref_name" := VRef (refNameLoc p)]}); cycle 1.
    { apply (catalogIntact_static _ _ _ Hh); [..|apply initialHeap_conditions].
      all: destruct p; simpl; lia. }
    cbn [mbind option_bind]. rewrite lookup_singleton_eq. cbn [mbind option_bind].
    unfold readRefName. rewrite (readObject_object _ _ _ Hrn).
    cbn [mbind option_bind]. rewrite Hinc, Hexc. cbn [mbind option_bind].
    unfold readStrings. rewrite (readArray_array _ _ _ Hincl).
    cbn [mbind option_bind]. rewrite mapM_readString. cbn [mbind option_bind].
    rewrite (readArray_array _ (templateLoc p - 7) []); [done|].
    apply (catalogIntact_static _ _ _ Hh); [..|apply initialHeap_exclude].
    all: destruct p; simpl; lia. }
  rewrite (readArray_array _ _ [VRef (templateLoc p - 3); VRef (templateLoc p - 2)]); cycle 1.
  { apply (catalogIntact_static _ _ _ Hh); [..|apply initialHeap_rules].
    all: destruct p; simpl; lia. }
  cbn [mbind option_bind mapM].
  rewrite (readRule_pullRequest _ p Hh), (readRule_nonFastForward _ p Hh).
  reflexivity.
Qed.

Lemma templateProps_shape p :
  templateProps p !! "name" = Some (VStr (templateName p))
  /\ templateProps p !! "target" = Some (VStr "branch")
  /\ templateProps p !! "enforcement" = Some (VStr "active")
  /\ templateProps p !! "conditions" = Some (VRef (templateLoc p - 5))
  /\ templateProps p !! "rules" = Some (VRef (templateLoc p - 1)).
Proof. destruct p; vm_compute; auto. Qed.

(** An object with the properties of a template, the template itself or a
    copy, reads as the preset's document with the shared [include]. *)
Lemma readRuleset_shared h l p bs :
  catalogIntact h -> sharedInclude h p bs ->
  cells h !! l = Some (CObject (templateProps p)) ->
  readRuleset h (VRef l) =
  Some {| name := templateName p; target := "branch"; enforcement := "active";
          conditions := {| ref_name := {| include := bs; exclude := [] |} |};
          rules := presetRules p |}.
Proof.
  intros Hh (incl & Hrn & _ & _ & Hincl) Hl.
  destruct (templateProps_shape p) as (? & ? & ? & ? & ?).
  by eapply readRuleset_shape.
Qed.

Lemma catalogIntact_template h p :
  catalogIntact h -> cells h !! templateLoc p = Some (CObject (templateProps p)).
Proof.
  intros Hh. pose proof (templateLoc_bounds p).
  apply (catalogIntact_static _ _ _ Hh); [lia|destruct p; simpl; lia|].
  apply initialHeap_template.
Qed.

Lemma readPreset_shared h p bs :
  catalogIntact h -> sharedInclude h p bs ->
  readPreset h p =
  Some {| name := templateName p; target := "branch"; enforcement := "active";
          conditions := {| ref_name := {| include := bs; exclude := [] |} |};
          rules := presetRules p |}.
Proof.
  intros Hh Hs. unfold readPreset. rewrite BRANCH_PROTECTION_PRESETS_loaded.
  rewrite (readObject_object _ _ catalogProps); cycle 1.
  { apply (catalogIntact_static _ _ _ Hh); [..|apply initialHeap_catalog].
    all: unfold catalogLoc; lia. }
  cbn [mbind option_bind]. rewrite catalogProps_lookup. cbn [mbind option_bind].
  apply (readRuleset_shared _ _ _ _ Hh Hs), catalogIntact_template, Hh.
Qed.

Lemma sharedInclude_initialHeap p : sharedInclude initialHeap p [].
Proof.
  exists (templateLoc p - 8). split; [apply initialHeap_refName|].
  rewrite next_initialHeap. pose proof (templateLoc_bounds p).
  split; [lia|]. split; [destruct p; intros []; unfold refNameLoc; simpl; lia|].
  destruct p; vm_compute; reflexivity.
Qed.

Lemma sharedInclude_afterCall_same h p b :
  catalogIntact h -> sharedInclude (afterCall h p b) p ["refs/heads/" +:+ b].
Proof.
  intros Hh. pose proof (catalogIntact_next h Hh). pose proof (templateLoc_bounds p).
  exists (S (next h)). cbn [afterCall cells next].
  split; [apply lookup_insert_eq|]. split; [lia|].
  split; [intros q; pose proof (templateLoc_bounds q); unfold refNameLoc; lia|].
  rewrite lookup_insert_ne by (unfold refNameLoc; lia). apply lookup_insert_eq.
Qed.

Lemma sharedInclude_afterCall_other h p q b bs :
  catalogIntact h -> q <> p -> sharedInclude h q bs ->
  sharedInclude (afterCall h p b) q bs.
Proof.
  intros Hh Hqp (l & Hrn & Hl & Hnot & Harr).
  pose proof (catalogIntact_next h Hh). pose proof (templateLoc_bounds p).
  pose proof (templateLoc_bounds q).
  exists l. cbn [afterCall cells next].
  split.
  { rewrite !lookup_insert_ne; [exact Hrn|unfold refNameLoc; lia..|].
    intros Heq%refNameLoc_inj. congruence. }
  split; [lia|]. split; [exact Hnot|].
  rewrite !lookup_insert_ne; [exact Harr|lia..|]. apply not_eq_sym, Hnot.
Qed.

Lemma catalogShared_afterCall h p b : catalogShared h -> catalogShared (afterCall h p b).
Proof.
  intros [Hh Hs]. split; [by apply afterCall_intact|].
  intros q. destruct (decide (q = p)) as [->|Hqp].
  - eexists. by apply sharedInclude_afterCall_same.
  - destruct (Hs q) as [bs Hbs]. exists bs. by apply sharedInclude_afterCall_other.
Qed.

Lemma reachable_shared h : reachable h -> catalogShared h.
Proof.
  induction 1 as [|h p b r h' _ IH Hcall].
  - split; [apply catalogIntact_initialHeap|]. intros p. eexists.
    apply sharedInclude_initialHeap.
  - destruct IH as [Hh Hs].
    rewrite (getBranchProtectionPreset_intact h p b Hh) in Hcall.
    injection Hcall as _ <-. by apply catalogShared_afterCall.
Qed.

Lemma getBranchProtectionPreset_call h p b :
  catalogIntact h ->
  getBranchProtectionPreset p (Some b) h = (inr (VRef (next h)), afterCall h p b).
Proof. apply (getBranchProtectionPreset_intact h p (Some b)). Qed.

(** X1: a call without a target branch is the call for ['master']: it
    returns the same object in the same store, and the ruleset reads the
    single include ref ['refs/heads/master']. *)
Theorem getBranchProtectionPreset_default_target (h : heap) (p : BranchProtectionPreset) :
  reachable h ->
  exists config h' doc,
    getBranchProtectionPreset p None h = (inr config, h')
    /\ getBranchProtectionPreset p (Some "master") h = (inr config, h')
    /\ readRuleset h' config = Some doc
    /\ include (ref_name (conditions doc)) = ["refs/heads/master"].
Proof.
  intros Hh%reachable_intact.
  exists (VRef (next h)), (afterCall h p "master"), (presetDocument p "master").
  split; [apply (getBranchProtectionPreset_intact h p None Hh)|].
  split; [apply (getBranchProtectionPreset_intact h p (Some "master") Hh)|].
  split; [by apply readRuleset_afterCall|reflexivity].
Qed.

Lemma getBranchProtectionPreset_default_target_witness :
  reachable initialHeap
  /\ exists config h' doc,
    getBranchProtectionPreset minimal None initialHeap = (inr config, h')
    /\ getBranchProtectionPreset minimal (Some "master") initialHeap = (inr config, h')
    /\ readRuleset h' config = Some doc
    /\ include (ref_name (conditions doc)) = ["refs/heads/master"].
Proof.
  split; [apply reachable_load|].
  apply (getBranchProtectionPreset_default_target initialHeap minimal reachable_load).
Defined.

(** X2: what does not depend on the preset or on the branch.  Every
    returned ruleset is named ['Branch protection rules (<preset>)'], targets
    ['branch'], is enforced as ['active'], excludes no ref, has exactly the
    two rules [pull_request] and [non_fast_forward] in this order, does not
    require a code owner review, and its [non_fast_forward] rule has no
    parameters. *)
Theorem getBranchProtectionPreset_fixed_fields (h : heap) (p : BranchProtectionPreset)
    (b : option string) :
  reachable h ->
  exists config h' doc,
    getBranchProtectionPreset p b h = (inr config, h')
    /\ readRuleset h' config = Some doc
    /\ name doc = "Branch protection rules (" +:+ presetKey p +:+ ")"
    /\ target doc = "branch"
    /\ enforcement doc = "active"
    /\ exclude (ref_name (conditions doc)) = []
    /\ rule_type <$> rules doc = ["pull_request"; "non_fast_forward"]
    /\ parametersOf doc "require_code_owner_review" = Some (VBool false)
    /\ findRule "non_fast_forward" doc =
       Some {| rule_type := "non_fast_forward"; parameters := None |}.
Proof.
  intros Hh%reachable_intact.
  exists (VRef (next h)), (afterCall h p (default "master" b)),
    (presetDocument p (default "master" b)).
  split; [apply (getBranchProtectionPreset_intact h p b Hh)|].
  split; [by apply readRuleset_afterCall|].
  do 5 (split; [reflexivity|]).
  split; [destruct p; vm_compute; reflexivity|reflexivity].
Qed.

Lemma getBranchProtectionPreset_fixed_fields_witness :
  reachable initialHeap
  /\ exists config h' doc,
    getBranchProtectionPreset moderate (Some "main") initialHeap = (inr config, h')
    /\ readRuleset h' config = Some doc
    /\ name doc = "Branch protection rules (" +:+ presetKey moderate +:+ ")"
    /\ target doc = "branch"
    /\ enforcement doc = "active"
    /\ exclude (ref_name (conditions doc)) = []
    /\ rule_type <$> rules doc = ["pull_request"; "non_fast_forward"]
    /\ parametersOf doc "require_code_owner_review" = Some (VBool false)
    /\ findRule "non_fast_forward" doc =
       Some {| rule_type := "non_fast_forward"; parameters := None |}.
Proof.
  split; [apply reachable_load|].
  apply (getBranchProtectionPreset_fixed_fields initialHeap moderate (Some "main")
           reachable_load).
Defined.

(** X3: the assignment of [include] goes through to the static template
    of the requested preset, and to that one only: after a call for [p] and
    [b] the template of [p] reads ['refs/heads/' + b], and the template of
    every other preset reads what it read before. *)
Theorem getBranchProtectionPreset_writes_template (h : heap)
    (p : BranchProtectionPreset) (b : string) :
  reachable h ->
  let h' := snd (getBranchProtectionPreset p (Some b) h) in
  includeOf (readPreset h' p) = Some ["refs/heads/" +:+ b]
  /\ forall q, q <> p -> readPreset h' q = readPreset h q /\ is_Some (readPreset h q).
Proof.
  intros [Hh Hs]%reachable_shared. cbv zeta.
  rewrite (getBranchProtectionPreset_call h p b Hh). cbn [snd].
  pose proof (afterCall_intact h p b Hh) as Hh'.
  split.
  - by rewrite (readPreset_shared _ _ _ Hh' (sharedInclude_afterCall_same h p b Hh)).
  - intros q Hqp. destruct (Hs q) as [bs Hbs].
    rewrite (readPreset_shared _ _ _ Hh'
               (sharedInclude_afterCall_other h p q b bs Hh Hqp Hbs)).
    rewrite (readPreset_shared _ _ _ Hh Hbs). eauto.
Qed.

Lemma getBranchProtectionPreset_writes_template_witness :
  reachable initialHeap
  /\ let h' := snd (getBranchProtectionPreset strict (Some "main") initialHeap) in
     includeOf (readPreset initialHeap strict) = Some []
     /\ includeOf (readPreset h' strict) = Some ["refs/heads/" +:+ "main"]
     /\ forall q, q <> strict ->
          readPreset h' q = readPreset initialHeap q
          /\ is_Some (readPreset initialHeap q).
Proof.
  split; [apply reachable_load|]. cbv zeta.
  split; [vm_compute; reflexivity|].
  apply (getBranchProtectionPreset_writes_template initialHeap strict "main"
           reachable_load).
Defined.

(** X4: two calls in a row return two different objects, each reading
    its own branch when it is returned.  After the second call the first
    object reads the second branch if both calls were for the same preset,
    and is unchanged if they were for different presets. *)
Theorem getBranchProtectionPreset_results_share (h h1 h2 : heap)
    (p q : BranchProtectionPreset) (b1 b2 : string) (v1 v2 : val) :
  reachable h ->
  getBranchProtectionPreset p (Some b1) h = (inr v1, h1) ->
  getBranchProtectionPreset q (Some b2) h1 = (inr v2, h2) ->
  v1 <> v2
  /\ includeOf (readRuleset h1 v1) = Some ["refs/heads/" +:+ b1]
  /\ includeOf (readRuleset h2 v2) = Some ["refs/heads/" +:+ b2]
  /\ (q = p -> includeOf (readRuleset h2 v1) = Some ["refs/heads/" +:+ b2])
  /\ (q <> p -> readRuleset h2 v1 = readRuleset h1 v1).
Proof.
  intros Hh%reachable_intact Hfirst Hsecond.
  rewrite (getBranchProtectionPreset_call h p b1 Hh) in Hfirst.
  injection Hfirst as <- <-.
  pose proof (afterCall_intact h p b1 Hh) as Hh1.
  rewrite (getBranchProtectionPreset_call _ q b2 Hh1) in Hsecond.
  injection Hsecond as <- <-.
  pose proof (afterCall_intact _ q b2 Hh1) as Hh2.
  pose proof (catalogIntact_next h Hh) as Hn.
  pose proof (templateLoc_bounds p) as Hp. pose proof (templateLoc_bounds q) as Hq.
  assert (cells (afterCall h p b1) !! next h = Some (CObject (templateProps p))) as Hc1.
  { cbn [afterCall cells]. rewrite !lookup_insert_ne by (unfold refNameLoc; lia).
    apply lookup_insert_eq. }
  assert (cells (afterCall (afterCall h p b1) q b2) !! next h =
          Some (CObject (templateProps p))) as Hc2.
  { cbn [afterCall cells next] in *.
    rewrite (lookup_insert_ne _ (refNameLoc q)) by (unfold refNameLoc; lia).
    rewrite (lookup_insert_ne _ (S (S (S (next h))))) by lia.
    rewrite (lookup_insert_ne _ (S (S (next h)))) by lia. exact Hc1. }
  split; [cbn [afterCall next]; intros [=]; lia|].
  split; [by rewrite readRuleset_afterCall|].
  split; [by rewrite readRuleset_afterCall|].
  split.
  - intros ->.
    by rewrite (readRuleset_shared _ _ _ _ Hh2 (sharedInclude_afterCall_same _ p b2 Hh1) Hc2).
  - intros Hqp.
    pose proof (sharedInclude_afterCall_same h p b1 Hh) as Hs1.
    rewrite (readRuleset_shared _ _ _ _ Hh2
               (sharedInclude_afterCall_other _ q p b2 _ Hh1 (not_eq_sym Hqp) Hs1) Hc2).
    by rewrite (readRuleset_shared _ _ _ _ Hh1 Hs1 Hc1).
Qed.

Lemma getBranchProtectionPreset_results_share_witness :
  let first := getBranchProtectionPreset strict (Some "main") initialHeap in
  let second := getBranchProtectionPreset moderate (Some "develop") (snd first) in
  reachable initialHeap
  /\ first = (inr (VRef 28), snd first)
  /\ second = (inr (VRef 30), snd second)
  /\ VRef 28 <> VRef 30
  /\ includeOf (readRuleset (snd first) (VRef 28)) = Some ["refs/heads/" +:+ "main"]
  /\ includeOf (readRuleset (snd second) (VRef 30)) = Some ["refs/heads/" +:+ "develop"]
  /\ (moderate = strict ->
      includeOf (readRuleset (snd second) (VRef 28)) = Some ["refs/heads/" +:+ "develop"])
  /\ (moderate <> strict ->
      readRuleset (snd second) (VRef 28) = readRuleset (snd first) (VRef 28)).
Proof.
  cbv zeta. split; [apply reachable_load|].
  assert (getBranchProtectionPreset strict (Some "main") initialHeap =
          (inr (VRef 28), snd (getBranchProtectionPreset strict (Some "main") initialHeap)))
    as Hfirst by (vm_compute; reflexivity).
  assert (getBranchProtectionPreset moderate (Some "develop")
            (snd (getBranchProtectionPreset strict (Some "main") initialHeap)) =
          (inr (VRef 30),
           snd (getBranchProtectionPreset moderate (Some "develop")
                  (snd (getBranchProtectionPreset strict (Some "main") initialHeap)))))
    as Hsecond by (vm_compute; reflexivity).
  split; [exact Hfirst|]. split; [exact Hsecond|].
  exact (getBranchProtectionPreset_results_share _ _ _ strict moderate "main" "develop"
           _ _ reachable_load Hfirst Hsecond).
Defined.

Lemma catalogIntact_insert h l c :
  catalogIntact h -> 28 <= l ->
  catalogIntact (Heap (<[l := c]> (cells h)) (next h)).
Proof.
  intros (Hnext & Hframe & Hrn) Hl. split; [exact Hnext|]. split.
  - intros l' Hl' Hq. cbn [cells]. rewrite next_initialHeap in Hl'.
    rewrite lookup_insert_ne by lia. apply Hframe; [by rewrite next_initialHeap|done].
  - intros q. pose proof (templateLoc_bounds q). cbn [cells].
    rewrite lookup_insert_ne by (unfold refNameLoc; lia). apply Hrn.
Qed.

(** X5: the spread copies the top level of the template.  Assigning
    [name] on a returned object succeeds and changes the returned ruleset
    only: its [include] list stays, and the static template reads as before,
    under its own name. *)
Theorem getBranchProtectionPreset_copy_owns_name (h h1 : heap)
    (p : BranchProtectionPreset) (b x : string) (v : val) :
  reachable h ->
  getBranchProtectionPreset p (Some b) h = (inr v, h1) ->
  exists h2,
    setProp v "name" (VStr x) h1 = (inr tt, h2)
    /\ name <$> readRuleset h2 v = Some x
    /\ includeOf (readRuleset h2 v) = Some ["refs/heads/" +:+ b]
    /\ readPreset h2 p = readPreset h1 p
    /\ name <$> readPreset h2 p = Some ("Branch protection rules (" +:+ presetKey p +:+ ")").
Proof.
  intros Hh%reachable_intact Hcall.
  rewrite (getBranchProtectionPreset_call h p b Hh) in Hcall.
  injection Hcall as <- <-.
  pose proof (afterCall_intact h p b Hh) as Hh1.
  pose proof (catalogIntact_next h Hh) as Hn.
  pose proof (templateLoc_bounds p) as Hp.
  assert (cells (afterCall h p b) !! next h = Some (CObject (templateProps p))) as Hc1.
  { cbn [afterCall cells]. rewrite !lookup_insert_ne by (unfold refNameLoc; lia).
    apply lookup_insert_eq. }
  eexists. split; [apply (setProp_object _ _ _ _ _ Hc1)|].
  match goal with |- context [readRuleset ?h' _] => set (h2 := h') end.
  assert (catalogIntact h2) as Hh2 by (by apply catalogIntact_insert; [|lia]).
  pose proof (sharedInclude_afterCall_same h p b Hh) as Hs1.
  assert (sharedInclude h2 p ["refs/heads/" +:+ b]) as Hs2.
  { exists (S (next h)). subst h2. cbn [cells next afterCall].
    split.
    { rewrite lookup_insert_ne by (unfold refNameLoc; lia). apply lookup_insert_eq. }
    split; [lia|].
    split; [intros q; pose proof (templateLoc_bounds q); unfold refNameLoc; lia|].
    rewrite !lookup_insert_ne by (unfold refNameLoc; lia). apply lookup_insert_eq. }
  destruct (templateProps_shape p) as (Hname & Htarget & Henf & Hcond & Hrules).
  assert (readRuleset h2 (VRef (next h)) =
          Some {| name := x; target := "branch"; enforcement := "active";
                  conditions :=
                    {| ref_name := {| include := ["refs/heads/" +:+ b]; exclude := [] |} |};
                  rules := presetRules p |}) as ->.
  { destruct Hs2 as (l & Hrn & _ & _ & Harr).
    apply (readRuleset_shape h2 (next h) p (<["name" := VStr x]> (templateProps p))
             x "branch" "active" l ["refs/heads/" +:+ b] Hh2).
    - subst h2. cbn [cells]. apply lookup_insert_eq.
    - apply lookup_insert_eq.
    - by rewrite lookup_insert_ne.
    - by rewrite lookup_insert_ne.
    - by rewrite lookup_insert_ne.
    - by rewrite lookup_insert_ne.
    - exact Hrn.
    - exact Harr. }
  split; [reflexivity|]. split; [reflexivity|].
  rewrite (readPreset_shared _ _ _ Hh2 Hs2), (readPreset_shared _ _ _ Hh1 Hs1).
  split; reflexivity.
Qed.

Lemma getBranchProtectionPreset_copy_owns_name_witness :
  reachable initialHeap
  /\ exists v h1 h2,
      getBranchProtectionPreset strict (Some "main") initialHeap = (inr v, h1)
      /\ setProp v "name" (VStr "renamed") h1 = (inr tt, h2)
      /\ name <$> readRuleset h2 v = Some "renamed"
      /\ includeOf (readRuleset h2 v) = Some ["refs/heads/" +:+ "main"]
      /\ readPreset h2 strict = readPreset h1 strict
      /\ name <$> readPreset h2 strict =
         Some ("Branch protection rules (" +:+ presetKey strict +:+ ")").
Proof.
  split; [apply reachable_load|].
  destruct (getBranchProtectionPreset strict (Some "main") initialHeap)
    as [[e|v] h1] eqn:Hcall; [vm_compute in Hcall; discriminate|].
  destruct (getBranchProtectionPreset_copy_owns_name initialHeap h1 strict "main"
              "renamed" v reachable_load Hcall) as (h2 & Hfacts).
  exists v, h1, h2. split; [reflexivity|exact Hfacts].
Defined.

Lemma reachable_include h :
  reachable h ->
  catalogIntact h
  /\ forall p, exists bs,
       sharedInclude h p bs /\ (bs = [] \/ exists b, bs = ["refs/heads/" +:+ b]).
Proof.
  induction 1 as [|h p b r h' _ IH Hcall].
  - split; [apply catalogIntact_initialHeap|]. intros p. exists [].
    split; [apply sharedInclude_initialHeap|by left].
  - destruct IH as [Hh Hs].
    rewrite (getBranchProtectionPreset_intact h p b Hh) in Hcall.
    injection Hcall as _ <-. split; [by apply afterCall_intact|].
    intros q. destruct (decide (q = p)) as [->|Hqp].
    + eexists. split; [by apply sharedInclude_afterCall_same|]. right. by eexists.
    + destruct (Hs q) as (bs & Hbs & Hshape). exists bs.
      split; [by apply sharedInclude_afterCall_other|exact Hshape].
Qed.

(** X6: an invariant of the catalog.  In every store the program can be
    in, each template keeps its name, target, enforcement, empty [exclude]
    and rules; its [include] list is the only part that changes, and it is
    either empty, before the first call for the preset, or the single ref of
    a requested branch. *)
Theorem reachable_templates (h : heap) (p : BranchProtectionPreset) :
  reachable h ->
  exists bs,
    readPreset h p =
    Some {| name := "Branch protection rules (" +:+ presetKey p +:+ ")";
            target := "branch"; enforcement := "active";
            conditions := {| ref_name := {| include := bs; exclude := [] |} |};
            rules := presetRules p |}
    /\ (bs = [] \/ exists b, bs = ["refs/heads/" +:+ b]).
Proof.
  intros [Hh Hs]%reachable_include. destruct (Hs p) as (bs & Hbs & Hshape).
  exists bs. split; [|exact Hshape]. by rewrite (readPreset_shared _ _ _ Hh Hbs).
Qed.

Lemma reachable_templates_witness :
  reachable (snd (getBranchProtectionPreset minimal (Some "main") initialHeap))
  /\ exists bs,
    readPreset (snd (getBranchProtectionPreset minimal (Some "main") initialHeap)) minimal =
    Some {| name := "Branch protection rules (" +:+ presetKey minimal +:+ ")";
            target := "branch"; enforcement := "active";
            conditions := {| ref_name := {| include := bs; exclude := [] |} |};
            rules := presetRules minimal |}
    /\ (bs = [] \/ exists b, bs = ["refs/heads/" +:+ b]).
Proof.
  assert (reachable (snd (getBranchProtectionPreset minimal (Some "main") initialHeap)))
    as Hreach.
  { destruct (getBranchProtectionPreset minimal (Some "main") initialHeap) as [r h'] eqn:Hcall.
    exact (reachable_call _ _ _ _ _ reachable_load Hcall). }
  split; [exact Hreach|]. exact (reachable_templates _ minimal Hreach).
Defined.

(** ** Runner: what a run records *)

Section RunnerRecords.
Import Main Constants.
Context {P : Type} (inputs : gmap string string) (parser : InputParser).

Implicit Types (F : Error -> list Event -> Prop) (es : list Event).

Lemma records_ret {A} (a : A) F : records (P:=P) (ret a) [] F.
Proof.
  intros r. split; [reflexivity|]. exists []. cbn.
  split; [by rewrite app_nil_r|]. split; [done|]. split; [done|]. intros ? [=].
Qed.

Lemma records_eq {A} (m : M (Run P) A) es es' F :
  records m es F -> es = es' -> records m es' F.
Proof. by intros H <-. Qed.

Lemma records_bind {A B} (m : M (Run P) A) (k : A -> M (Run P) B) es1 es2 F :
  records m es1 F ->
  (forall a, records (k a) es2 (fun e es' => F e (es1 ++ es')%list)) ->
  records (bind m k) (es1 ++ es2)%list F.
Proof.
  intros Hm Hk r. unfold bind.
  destruct (Hm r) as (Hrem & es' & Hev & Hpre & Hok & Hfail).
  destruct (m r) as [[e|a] r1]; cbn [fst snd] in *.
  - split; [exact Hrem|]. exists es'. split; [exact Hev|].
    split; [by apply prefix_app_r|]. split; [intros ? [=]|].
    intros ? [= <-]. by apply Hfail.
  - rewrite (Hok a eq_refl) in Hev. clear Hok Hfail Hpre.
    destruct (Hk a r1) as (Hrem2 & es2' & Hev2 & Hpre2 & Hok2 & Hfail2).
    split; [by rewrite Hrem2|]. exists (es1 ++ es2')%list.
    split; [by rewrite Hev2, Hev, app_assoc|].
    split; [by apply prefix_app|].
    split; [intros b Hb; by rewrite (Hok2 b Hb)|exact Hfail2].
Qed.

Lemma records_getInput {A} name (k : string -> M (Run P) A) es F :
  records (k (trim (default "" (inputs !! name)))) es F ->
  records (bind (getInput inputs name false) k) es F.
Proof. intros Hk r. unfold bind, getInput. cbn [andb]. apply Hk. Qed.

Lemma records_getInput_required {A} name (k : string -> M (Run P) A) es F :
  (default "" (inputs !! name) = "" ->
   F (mkError ("Input required and not supplied: " +:+ name) false) []) ->
  records (k (trim (default "" (inputs !! name)))) es F ->
  records (bind (getInput inputs name true) k) es F.
Proof.
  intros Hmissing Hk r. unfold bind, getInput. cbn [andb].
  destruct (String.eqb_spec (default "" (inputs !! name)) "") as [Hempty|_].
  - cbn. split; [reflexivity|]. exists [].
    split; [by rewrite app_nil_r|]. split; [apply prefix_nil|].
    split; [intros ? [=]|]. intros ? [= <-]. by apply Hmissing.
  - apply Hk.
Qed.

Lemma records_parse {A} name (f : string -> Error + A) raw F :
  (forall e, f raw = inl e -> F e [Parse name raw]) ->
  records (P:=P) (parse name f raw) [Parse name raw] F.
Proof.
  intros Hf r. unfold parse, bind, emit, modify.
  destruct (f raw) as [e|a]; cbn.
  - split; [reflexivity|]. eexists. split; [reflexivity|]. split; [done|].
    split; [intros ? [=]|]. intros ? [= <-]. by apply Hf.
  - split; [reflexivity|]. eexists. split; [reflexivity|]. split; [done|].
    split; [done|]. intros ? [=].
Qed.

Lemma records_parseWhenSupplied {A} name (f : string -> Error + A) raw F :
  (forall e, raw <> "" -> f raw = inl e -> F e [Parse name raw]) ->
  records (P:=P) (parseWhenSupplied name f raw)
    (if String.eqb raw "" then [] else [Parse name raw]) F.
Proof.
  intros Hf. unfold parseWhenSupplied.
  destruct (String.eqb_spec raw "") as [_|Hraw]; [apply records_ret|].
  apply (records_eq _ ([Parse name raw] ++ [])%list); [|reflexivity].
  apply records_bind; [apply records_parse; auto|]. intros a. apply records_ret.
Qed.

Lemma records_tryCatch {A} (m : M (Run P) A) (g : Error -> Error) es F :
  records m es F ->
  records (tryCatch m (fun e => throw (g e))) es
    (fun e es' => exists e0, e = g e0 /\ F e0 es').
Proof.
  intros Hm r. unfold tryCatch, throw.
  destruct (Hm r) as (Hrem & es' & Hev & Hpre & Hok & Hfail).
  destruct (m r) as [[e|a] r1]; cbn [fst snd] in *.
  - split; [exact Hrem|]. exists es'. split; [exact Hev|]. split; [exact Hpre|].
    split; [intros ? [=]|]. intros ? [= <-]. eauto.
  - split; [exact Hrem|]. exists es'. split; [exact Hev|]. split; [exact Hpre|].
    split; [exact Hok|]. intros ? [=].
Qed.

Lemma last_parse es name raw : last (es ++ [Parse name raw]) = Some (Parse name raw).
Proof. apply last_snoc. Qed.


Lemma getInitializer_records :
  records (P:=P) (getInitializer inputs parser)
    (if String.eqb (trim (default "" (inputs !! "productionalize"))) "true"
     then parseCalls inputs else [])
    (fun e es' => exists e0, e = wrapped e0 /\ initFailure inputs parser e0 es').
Proof.
  unfold getInitializer.
  apply (records_tryCatch _ wrapped).
  apply records_getInput_required.
  { intros Hmissing. exists "github-token". split; [set_solver|by split]. }
  apply records_getInput_required.
  { intros Hmissing. exists "repository-name". split; [set_solver|by split]. }
  do 9 apply records_getInput. cbv zeta.
  unfold DEFAULT_PRODUCTIONALIZE. rewrite orb_false_r.
  destruct (String.eqb (trim (default "" (inputs !! "productionalize"))) "true").
  - eapply records_eq; [apply records_bind; [|intros a; apply records_ret]|].
    2: apply app_nil_r.
    cbv iota.
    unfold parseCalls, parserInputs. cbn [flat_map fst snd].
    apply records_getInput.
    apply records_bind.
    { apply records_parseWhenSupplied. intros e _ He.
      unfold initFailure. cbn [last]. unfold parserError, thrown. cbn. by rewrite He. }
    intros teams.
    apply records_getInput.
    apply records_bind.
    { apply records_parseWhenSupplied. intros e _ He.
      unfold initFailure. rewrite last_parse. unfold parserError, thrown. cbn.
      by rewrite He. }
    intros topics.
    apply records_getInput.
    apply records_bind.
    { apply records_parseWhenSupplied. intros e _ He.
      unfold initFailure. rewrite !app_assoc, last_parse.
      unfold parserError, thrown. cbn. by rewrite He. }
    intros environments.
    apply records_getInput.
    apply records_bind.
    { apply records_parseWhenSupplied. intros e _ He.
      unfold initFailure. rewrite !app_assoc, last_parse.
      unfold parserError, thrown. cbn. by rewrite He. }
    intros variables.
    apply records_getInput.
    apply records_bind.
    { destruct (String.eqb (trim (default "" (inputs !! "branch-protection-preset"))) "");
        [apply records_ret|].
      apply (records_eq _ ([Parse "parseBranchProtectionPreset"
                              (trim (default "" (inputs !! "branch-protection-preset")))]
                            ++ [])%list);
        [|reflexivity].
      apply records_bind.
      - apply records_parse. intros e He.
        unfold initFailure. rewrite !app_assoc, last_parse.
        unfold parserError, thrown. cbn. by rewrite He.
      - intros preset. apply records_getInput, records_ret. }
    intros branchProtection.
    apply records_getInput.
    eapply records_eq; [apply records_bind; [|intros a; apply records_ret]|].
    2: reflexivity.
    apply records_parseWhenSupplied. intros e _ He.
    unfold initFailure. rewrite !app_assoc, last_parse.
    unfold parserError, thrown. cbn. by rewrite He.
  - apply (records_eq _ ([] ++ [])%list); [|reflexivity].
    apply records_bind; [apply records_ret|]. intros a. apply records_ret.
Qed.


Lemma parseCalls_isParse : Forall (fun e => isParse e = true) (parseCalls inputs).
Proof.
  unfold parseCalls, parserInputs. cbn [flat_map fst snd].
  repeat match goal with
    | |- context [String.eqb ?a ""] => destruct (String.eqb a "")
    end; cbn; repeat constructor.
Qed.

(** X7: what an initialization records.  It never touches the remote
    platform, and the events it adds are parser calls only: none unless the
    [productionalize] input, with the white space at both ends removed, is
    ['true'], and otherwise one call for each input that is not empty once
    trimmed, on the trimmed input, in the order team permissions, topics,
    environments, environment variables, branch protection preset, secrets.
    A successful initialization records all of them, a failed one a
    prefix. *)
Theorem getInitializer_parser_calls (r0 : Run P) :
  let outcome := getInitializer inputs parser r0 in
  let calls :=
    if String.eqb (trim (default "" (inputs !! "productionalize"))) "true"
    then parseCalls inputs else [] in
  remote outcome.2 = remote r0
  /\ exists es,
      events outcome.2 = (events r0 ++ es)%list
      /\ es `prefix_of` calls
      /\ (forall init, outcome.1 = inr init -> es = calls).
Proof.
  cbv zeta. destruct (getInitializer_records r0) as (Hrem & es & Hev & Hpre & Hok & _).
  split; [exact Hrem|]. exists es. auto.
Qed.



Lemma getInput_required_inv name (s s' : Run P) v :
  getInput inputs name true s = (inr v, s') ->
  v = trim (default "" (inputs !! name)) /\ s' = s /\ default "" (inputs !! name) <> "".
Proof.
  unfold getInput. cbn [andb].
  destruct (String.eqb_spec (default "" (inputs !! name)) ""); [discriminate|].
  by intros [= <- <-].
Qed.

Lemma parse_inv {A} name (f : string -> Error + A) raw (s s' : Run P) a :
  parse name f raw s = (inr a, s') -> f raw = inr a.
Proof.
  unfold parse, bind, emit, modify. destruct (f raw); [discriminate|].
  by intros [= <- _].
Qed.

Lemma parseWhenSupplied_inv {A} name (f : string -> Error + A) raw (s s' : Run P) v :
  parseWhenSupplied name f raw s = (inr v, s') -> v = parsed f raw.
Proof.
  unfold parseWhenSupplied, parsed.
  destruct (String.eqb raw ""); [by intros [= <- _]|].
  intros (a & s1 & Hparse & [<- _]%ret_inv)%bind_inv.
  by rewrite (parse_inv _ _ _ _ _ _ Hparse).
Qed.

(** What a successful initialization returns, field by field. *)
Lemma getInitializer_success (r0 r1 : Run P) init :
  getInitializer inputs parser r0 = (inr init, r1) ->
  let get name := trim (default "" (inputs !! name)) in
  octokitClient init = get "github-token"
  /\ default "" (inputs !! "github-token") <> ""
  /\ default "" (inputs !! "repository-name") <> ""
  /\ token (input init) = get "github-token"
  /\ repo_name (input init) = get "repository-name"
  /\ description (input init) = get "repository-description"
  /\ private (input init) = String.eqb (get "repository-private") "true"
  /\ template (input init) = Some (get "repository-template")
  /\ organization (input init) = Some (get "organization")
  /\ autoInit (input init) = String.eqb (get "auto-init") "true"
  /\ gitignoreTemplate (input init) = Some (get "gitignore-template")
  /\ licenseTemplate (input init) = Some (get "license-template")
  /\ (get "productionalize" = "true" ->
      exists config,
        productionalizationConfig (input init) = Some config
        /\ cfg_teamPermissions config =
           parsed (parseTeamPermissions parser) (get "team-permissions")
        /\ cfg_topics config = parsed (parseTopics parser) (get "repository-topics")
        /\ cfg_environments config =
           parsed (parseEnvironments parser) (get "environments")
        /\ cfg_environmentVariables config =
           parsed (parseEnvironmentVariables parser) (get "environment-variables")
        /\ cfg_branchProtectionPreset config =
           default None
             (parsed (parseBranchProtectionPreset parser) (get "branch-protection-preset"))
        /\ cfg_branchProtectionTargetBranch config =
           (if String.eqb (get "branch-protection-preset") "" then None
            else Some (orElse (get "branch-protection-target-branch")
                         DEFAULT_BRANCH_PROTECTION_TARGET))
        /\ cfg_secrets config = parsed (parseSecrets parser) (get "repository-secrets")).
Proof.
  intros H. cbv zeta. unfold getInitializer in H. apply tryCatch_rethrow_inv in H.
  apply bind_inv in H as (? & ? & (-> & -> & Htoken)%getInput_required_inv & H).
  apply bind_inv in H as (? & ? & (-> & -> & Hname)%getInput_required_inv & H).
  do 9 apply bind_inv in H as (? & ? & [-> ->]%(getInput_inv inputs) & H).
  cbv zeta in H.
  apply bind_inv in H as (input' & s & H & [<- <-]%ret_inv). cbn [input octokitClient].
  unfold DEFAULT_PRODUCTIONALIZE in H. rewrite orb_false_r in H.
  destruct (String.eqb_spec (trim (default "" (inputs !! "productionalize"))) "true")
    as [Htrue|Hfalse].
  - apply bind_inv in H as (? & ? & [-> ->]%(getInput_inv inputs) & H).
    apply bind_inv in H as (teams & ? & ->%parseWhenSupplied_inv & H).
    apply bind_inv in H as (? & ? & [-> ->]%(getInput_inv inputs) & H).
    apply bind_inv in H as (topics & ? & ->%parseWhenSupplied_inv & H).
    apply bind_inv in H as (? & ? & [-> ->]%(getInput_inv inputs) & H).
    apply bind_inv in H as (envs & ? & ->%parseWhenSupplied_inv & H).
    apply bind_inv in H as (? & ? & [-> ->]%(getInput_inv inputs) & H).
    apply bind_inv in H as (vars & ? & ->%parseWhenSupplied_inv & H).
    apply bind_inv in H as (? & ? & [-> ->]%(getInput_inv inputs) & H).
    apply bind_inv in H as (bp & ? & Hbp & H).
    apply bind_inv in H as (? & ? & [-> ->]%(getInput_inv inputs) & H).
    apply bind_inv in H as (secrets & ? & ->%parseWhenSupplied_inv & H).
    apply ret_inv in H as [<- _]. cbn.
    do 12 (split; [done|]). intros _. eexists. split; [reflexivity|]. cbn.
    do 4 (split; [reflexivity|]).
    unfold parsed.
    destruct (String.eqb _ "") in Hbp |- *.
    + apply ret_inv in Hbp as [<- _]. done.
    + apply bind_inv in Hbp as (preset & ? & Hpreset%parse_inv & Hbp).
      apply bind_inv in Hbp as (? & ? & [-> ->]%(getInput_inv inputs) & Hbp).
      apply ret_inv in Hbp as [<- _]. rewrite Hpreset. done.
  - apply ret_inv in H as [<- _]. cbn. do 12 (split; [done|]). done.
Qed.

Lemma trim_true (m : gmap string string) k :
  trim (default "" (m !! k)) = "true" <->
  exists raw, m !! k = Some raw /\ trim raw = "true".
Proof.
  destruct (m !! k) as [raw|]; cbn [default].
  - split; [eauto|]. by intros (? & [= <-] & ?).
  - split; [discriminate|]. by intros (? & [=] & _).
Qed.

(** X9: the repository fields of a successful initialization.  Both
    required inputs were supplied and, as supplied, are not empty; the token
    and the name are these inputs with the white space at both ends removed,
    so that an input of white space only gives an empty token or name; the
    client is built from the token; and [private] and [autoInit] are [true]
    exactly when their input, trimmed, is the string ['true']: an absent
    [auto-init] input gives [false]. *)
Theorem getInitializer_repository_fields (r0 r1 : Run P) (init : FoundryInitializer) :
  getInitializer inputs parser r0 = (inr init, r1) ->
  (exists raw, inputs !! "github-token" = Some raw /\ raw <> ""
     /\ token (input init) = trim raw)
  /\ (exists raw, inputs !! "repository-name" = Some raw /\ raw <> ""
        /\ repo_name (input init) = trim raw)
  /\ octokitClient init = token (input init)
  /\ (private (input init) = true <->
      exists raw, inputs !! "repository-private" = Some raw /\ trim raw = "true")
  /\ (autoInit (input init) = true <->
      exists raw, inputs !! "auto-init" = Some raw /\ trim raw = "true").
Proof.
  intros Hinit. destruct (getInitializer_success _ _ _ Hinit)
    as (Hclient & Htoken & Hname & -> & -> & _ & -> & _ & _ & -> & _).
  split.
  { destruct (inputs !! "github-token") as [raw|]; [|done]. by exists raw. }
  split.
  { destruct (inputs !! "repository-name") as [raw|]; [|done]. by exists raw. }
  split; [exact Hclient|].
  by rewrite !String.eqb_eq, !trim_true.
Qed.

(** X10: the configuration of a successful initialization, field by
    field, in terms of the inputs with the white space at both ends
    removed.  A field is absent when its trimmed input is empty and holds
    what its parser returned on the trimmed input otherwise.  The target
    branch is set only together with the preset: it is absent when no preset
    is supplied, whatever the [branch-protection-target-branch] input is,
    and otherwise is that input, trimmed, or ['master'] when that is
    empty. *)
Theorem getInitializer_config_fields (r0 r1 : Run P) (init : FoundryInitializer)
    (config : ProductionalizationConfig) :
  getInitializer inputs parser r0 = (inr init, r1) ->
  productionalizationConfig (input init) = Some config ->
  let get name := trim (default "" (inputs !! name)) in
  cfg_teamPermissions config =
  parsed (parseTeamPermissions parser) (get "team-permissions")
  /\ cfg_topics config = parsed (parseTopics parser) (get "repository-topics")
  /\ cfg_environments config = parsed (parseEnvironments parser) (get "environments")
  /\ cfg_environmentVariables config =
     parsed (parseEnvironmentVariables parser) (get "environment-variables")
  /\ cfg_secrets config = parsed (parseSecrets parser) (get "repository-secrets")
  /\ cfg_branchProtectionPreset config =
     default None
       (parsed (parseBranchProtectionPreset parser) (get "branch-protection-preset"))
  /\ cfg_branchProtectionTargetBranch config =
     (if String.eqb (get "branch-protection-preset") "" then None
      else Some (if String.eqb (get "branch-protection-target-branch") "" then "master"
                 else get "branch-protection-target-branch")).
Proof.
  intros Hinit Hconfig. cbv zeta.
  destruct (getInitializer_success _ _ _ Hinit)
    as (_ & _ & _ & _ & _ & _ & _ & _ & _ & _ & _ & _ & Hon).
  destruct (getInitializer_inv _ _ _ _ _ Hinit) as (_ & Hoff & _).
  destruct (String.eqb_spec (trim (default "" (inputs !! "productionalize"))) "true")
    as [Hflag|Hflag]; cycle 1.
  { destruct (Hoff Hflag) as (_ & Hnone & _). congruence. }
  destruct (Hon Hflag) as (config' & Hconfig' & Hfields).
  rewrite Hconfig in Hconfig'. injection Hconfig' as <-.
  destruct Hfields as (-> & -> & -> & -> & -> & -> & ->). done.
Qed.

Context (createRepository : RepositoryInput -> P -> (Thrown + RepositoryResult) * P).
Context (productionalizeRepository :
           string -> option string -> ProductionalizationConfig ->
           P -> (Thrown + ProductionalizationResult) * P).
Context (stringify : ProductionalizationResult -> string).
Context (exponential : Z -> string).


Lemma run_initialization_fails r0 e r1 :
  getInitializer inputs parser r0 = (inl e, r1) ->
  run inputs parser createRepository productionalizeRepository stringify exponential r0 =
  (inr tt, {| events := events r1 ++ [SetFailed (message e)]; remote := remote r1 |}).
Proof. intros Hinit. unfold Main.run, tryCatch, bind at 1, await. by rewrite Hinit. Qed.

Lemma run_creation_fails r0 init r1 thrown p2 :
  getInitializer inputs parser r0 = (inr init, r1) ->
  createRepository (input init) (remote r1) = (inl thrown, p2) ->
  run inputs parser createRepository productionalizeRepository stringify exponential r0 =
  (inr tt, {| events := events r1 ++ [CreateRepository (input init);
                                       SetFailed (failureMessage thrown)];
              remote := p2 |}).
Proof.
  intros Hinit Hcreate. unfold Main.run, tryCatch, bind at 1, await. rewrite Hinit.
  unfold service, emit, modify, bind. cbn [remote events]. rewrite Hcreate.
  destruct thrown; cbn [remote events failureMessage]; by rewrite <- app_assoc.
Qed.

Lemma run_created_only r0 init r1 result p2 :
  getInitializer inputs parser r0 = (inr init, r1) ->
  createRepository (input init) (remote r1) = (inr result, p2) ->
  productionalizationConfig (input init) = None ->
  run inputs parser createRepository productionalizeRepository stringify exponential r0 =
  (inr tt, {| events := events r1 ++ created exponential (input init) result;
              remote := p2 |}).
Proof.
  intros Hinit Hcreate Hconfig. unfold Main.run, tryCatch, bind at 1, await.
  rewrite Hinit.
  unfold service, emit, modify, bind. cbn [remote events]. rewrite Hcreate, Hconfig.
  cbn [remote events].
  destruct (productionalize (input init)) as [[]|]; cbn [ret];
    by rewrite <- !app_assoc.
Qed.

Lemma run_productionalizes r0 init r1 result p2 config :
  getInitializer inputs parser r0 = (inr init, r1) ->
  createRepository (input init) (remote r1) = (inr result, p2) ->
  productionalize (input init) = Some true ->
  productionalizationConfig (input init) = Some config ->
  let owner := default "" (split "/" (full_name result) !! 0) in
  let repo := split "/" (full_name result) !! 1 in
  let started :=
    (events r1 ++ created exponential (input init) result
       ++ [Info "Starting repository productionalization...";
           ProductionalizeRepository owner repo config])%list in
  match productionalizeRepository owner repo config p2 with
  | (inl thrown, p3) =>
      run inputs parser createRepository productionalizeRepository stringify
        exponential r0 =
      (inr tt, {| events := started ++ [SetFailed (failureMessage thrown)];
                  remote := p3 |})
  | (inr prodResult, p3) =>
      run inputs parser createRepository productionalizeRepository stringify
        exponential r0 =
      (inr tt,
       {| events :=
            started ++ [SetOutput "productionalization-status" (stringify prodResult);
                        Info "Repository productionalization complete"];
          remote := p3 |})
  end.
Proof.
  intros Hinit Hcreate Hflag Hconfig. cbv zeta.
  destruct (productionalizeRepository _ _ config p2) as [[[e|]|prodResult] p3] eqn:Hprod.
  all: unfold Main.run, tryCatch, bind at 1, await; rewrite Hinit.
  all: unfold service, emit, modify, bind; cbn [remote events].
  all: rewrite Hcreate, Hflag, Hconfig; cbn [remote events].
  all: rewrite Hprod; cbn [remote events failureMessage].
  all: by rewrite <- !app_assoc.
Qed.

Lemma no_failure_lookup es k msg :
  Forall (fun e => isFailure e = false) es -> es !! k = Some (SetFailed msg) -> False.
Proof. intros Hes Hk. by pose proof (Forall_lookup_1 _ _ _ _ Hes Hk). Qed.

Lemma failure_last es (e : Event) k msg :
  Forall (fun e => isFailure e = false) es ->
  (es ++ [e])%list !! k = Some (SetFailed msg) -> S k = List.length (es ++ [e])%list.
Proof.
  intros Hes [Hk|[Hle Hk]]%lookup_app_Some.
  - destruct (no_failure_lookup _ _ _ Hes Hk).
  - rewrite length_app. cbn [List.length].
    destruct (k - List.length es) as [|n] eqn:Hn; [lia|]. by destruct n.
Qed.

Lemma isParse_not_failure es :
  Forall (fun e => isParse e = true) es -> Forall (fun e => isFailure e = false) es.
Proof. intros Hes. eapply Forall_impl; [exact Hes|]. by intros []. Qed.

Lemma getInitializer_events (p : P) :
  remote (getInitializer inputs parser (startRun p)).2 = p
  /\ Forall (fun e => isParse e = true)
       (events (getInitializer inputs parser (startRun p)).2).
Proof.
  destruct (getInitializer_records (startRun p)) as (Hrem & es & Hev & [k Hk] & _).
  split; [exact Hrem|]. rewrite Hev. cbn [startRun events app].
  assert (Forall (fun e => isParse e = true) (es ++ k)%list) as [H _]%Forall_app; [|exact H].
  rewrite <- Hk. destruct (String.eqb _ "true"); [apply parseCalls_isParse|constructor].
Qed.

Lemma getInitializer_flag (r0 r1 : Run P) init config :
  getInitializer inputs parser r0 = (inr init, r1) ->
  productionalizationConfig (input init) = Some config ->
  productionalize (input init) = Some true.
Proof.
  intros Hinit Hconfig. destruct (getInitializer_inv _ _ _ _ _ Hinit) as (_ & Hoff & Hon).
  destruct (String.eqb_spec (trim (default "" (inputs !! "productionalize"))) "true")
    as [Hflag|Hflag].
  - by destruct (Hon Hflag).
  - destruct (Hoff Hflag) as (_ & Hnone & _). congruence.
Qed.

(** X11: [run] never throws, and it reports a failure last: an event
    [SetFailed] of a run is the last event of the run, so that there is at
    most one. *)
Theorem run_sets_failed_last (p : P) :
  let outcome :=
    run inputs parser createRepository productionalizeRepository stringify exponential
      (startRun p) in
  outcome.1 = inr tt
  /\ forall k msg,
       events outcome.2 !! k = Some (SetFailed msg) -> S k = List.length (events outcome.2).
Proof.
  cbv zeta. destruct (getInitializer_events p) as [_ Hparses%isParse_not_failure].
  destruct (getInitializer inputs parser (startRun p)) as [[e|init] r1] eqn:Hinit;
    cbn [snd] in Hparses.
  { rewrite (run_initialization_fails _ _ _ Hinit). cbn [fst snd events].
    split; [reflexivity|]. intros k msg. by apply failure_last. }
  destruct (createRepository (input init) (remote r1)) as [[thrown|result] p2] eqn:Hcreate.
  { rewrite (run_creation_fails _ _ _ _ _ Hinit Hcreate). cbn [fst snd events].
    split; [reflexivity|]. intros k msg.
    change [CreateRepository (input init); SetFailed (failureMessage thrown)]
      with ([CreateRepository (input init)] ++ [SetFailed (failureMessage thrown)])%list.
    rewrite app_assoc. apply failure_last, Forall_app. split; [exact Hparses|].
    by repeat constructor. }
  destruct (productionalizationConfig (input init)) as [config|] eqn:Hconfig.
  - pose proof (getInitializer_flag _ _ _ _ Hinit Hconfig) as Hflag.
    pose proof (run_productionalizes _ _ _ _ _ _ Hinit Hcreate Hflag Hconfig) as Hrun.
    cbv zeta in Hrun.
    destruct (productionalizeRepository _ _ config p2) as [[thrown|prodResult] p3];
      rewrite Hrun; cbn [fst snd events]; (split; [reflexivity|]); intros k msg.
    + apply failure_last. rewrite !Forall_app.
      repeat split; first [exact Hparses|by repeat constructor].
    + intros Hk. exfalso. revert Hk. apply no_failure_lookup.
      rewrite !Forall_app.
      repeat split; first [exact Hparses|by repeat constructor].
  - rewrite (run_created_only _ _ _ _ _ Hinit Hcreate Hconfig). cbn [fst snd events].
    split; [reflexivity|]. intros k msg Hk. exfalso. revert Hk.
    apply no_failure_lookup, Forall_app. split; [exact Hparses|]. by repeat constructor.
Qed.

Lemma getInitializer_missing_token (r0 : Run P) :
  default "" (inputs !! "github-token") = "" ->
  getInitializer inputs parser r0 =
  (inl (wrapped (mkError "Input required and not supplied: github-token" false)), r0).
Proof.
  intros Htoken. unfold getInitializer, tryCatch, bind at 1, getInput.
  rewrite Htoken. reflexivity.
Qed.

Lemma getInitializer_missing_name (r0 : Run P) :
  default "" (inputs !! "github-token") <> "" ->
  default "" (inputs !! "repository-name") = "" ->
  getInitializer inputs parser r0 =
  (inl (wrapped (mkError "Input required and not supplied: repository-name" false)), r0).
Proof.
  intros Htoken%String.eqb_neq Hname. unfold getInitializer, tryCatch, bind at 1, getInput.
  rewrite Htoken. cbn [andb]. unfold bind at 1. rewrite Hname. reflexivity.
Qed.

(** X12: a missing required input.  When [github-token] or
    [repository-name] is missing the run consists of one event,
    [SetFailed] with the message of the first missing input; no parser and
    no service is called, and the remote platform is left as it was. *)
Theorem run_missing_required_input (p : P) :
  let token := default "" (inputs !! "github-token") in
  let name := default "" (inputs !! "repository-name") in
  token = "" \/ name = "" ->
  run inputs parser createRepository productionalizeRepository stringify exponential
    (startRun p) =
  (inr tt,
   {| events :=
        [SetFailed ("Failed to initialize Foundry: Error: Input required and not supplied: "
                      +:+ (if String.eqb token "" then "github-token"
                           else "repository-name"))];
      remote := p |}).
Proof.
  cbv zeta. intros Hmissing.
  destruct (String.eqb_spec (default "" (inputs !! "github-token")) "") as [Htoken|Htoken].
  - by rewrite (run_initialization_fails _ _ _ (getInitializer_missing_token _ Htoken)).
  - destruct Hmissing as [?|Hname]; [done|].
    by rewrite (run_initialization_fails _ _ _
                  (getInitializer_missing_name _ Htoken Hname)).
Qed.

(** X13: a failed initialization ends the run.  The exception's message
    goes to [SetFailed], the events before it are the parser calls of the
    initialization, no repository is created and the remote platform is
    left as it was. *)
Theorem run_initialization_failure (p : P) (e : Error) (r1 : Run P) :
  getInitializer inputs parser (startRun p) = (inl e, r1) ->
  run inputs parser createRepository productionalizeRepository stringify exponential
    (startRun p) =
  (inr tt, {| events := events r1 ++ [SetFailed (message e)]; remote := p |})
  /\ Forall (fun ev => isParse ev = true) (events r1).
Proof.
  intros Hinit. destruct (getInitializer_events p) as [Hrem Hparses].
  rewrite Hinit in Hrem, Hparses. cbn [snd] in Hrem, Hparses.
  rewrite (run_initialization_fails _ _ _ Hinit), Hrem. done.
Qed.

(** X14: a failed creation.  When [createRepository] throws, the run
    ends with [SetFailed], no output is set and the productionalization
    pass is not started.  The message is the message of what was thrown
    when that is an [Error], and ['An unknown error occurred'] when it is
    any other value. *)
Theorem run_creation_failure (p : P) (init : FoundryInitializer) (r1 : Run P)
    (thrown : Thrown) (p2 : P) :
  getInitializer inputs parser (startRun p) = (inr init, r1) ->
  createRepository (input init) (remote r1) = (inl thrown, p2) ->
  let outcome :=
    run inputs parser createRepository productionalizeRepository stringify exponential
      (startRun p) in
  outcome.1 = inr tt
  /\ remote outcome.2 = p2
  /\ last (events outcome.2) =
     Some (SetFailed match thrown with
                     | IsError e => message e
                     | NotError => "An unknown error occurred"
                     end)
  /\ Forall (fun ev => isOutput ev = false /\ isProductionalize ev = false)
       (events outcome.2).
Proof.
  intros Hinit Hcreate. cbv zeta.
  destruct (getInitializer_events p) as [_ Hparses].
  rewrite Hinit in Hparses. cbn [snd] in Hparses.
  rewrite (run_creation_fails _ _ _ _ _ Hinit Hcreate). cbn [fst snd events remote].
  split; [reflexivity|]. split; [reflexivity|]. split.
  - change [CreateRepository (input init); SetFailed (failureMessage thrown)]
      with ([CreateRepository (input init)] ++ [SetFailed (failureMessage thrown)])%list.
    by rewrite app_assoc, last_snoc.
  - apply Forall_app. split; [|by repeat constructor].
    eapply Forall_impl; [exact Hparses|]. by intros [].
Qed.


Lemma split_occurs_false sep s : occurs sep s = false -> split sep s = [s].
Proof.
  induction s as [|c s IH]; [done|]. cbn [occurs split].
  intros [Hc Hs]%orb_false_elim. rewrite Hc, (IH Hs). reflexivity.
Qed.

Lemma split_app sep a rest :
  occurs sep a = false -> split sep (a +:+ String sep rest) = a :: split sep rest.
Proof.
  induction a as [|c a IH]; simpl.
  - intros _. by rewrite Ascii.eqb_refl.
  - intros [Hc Ha]%orb_false_elim. rewrite Hc, (IH Ha). reflexivity.
Qed.

Lemma run_calls_productionalize (p : P) init r1 result p2 config :
  getInitializer inputs parser (startRun p) = (inr init, r1) ->
  createRepository (input init) (remote r1) = (inr result, p2) ->
  productionalizationConfig (input init) = Some config ->
  ProductionalizeRepository (default "" (split "/" (full_name result) !! 0))
    (split "/" (full_name result) !! 1) config
  ∈ events (run inputs parser createRepository productionalizeRepository stringify
              exponential (startRun p)).2.
Proof.
  intros Hinit Hcreate Hconfig.
  pose proof (getInitializer_flag _ _ _ _ Hinit Hconfig) as Hflag.
  pose proof (run_productionalizes _ _ _ _ _ _ Hinit Hcreate Hflag Hconfig) as Hrun.
  cbv zeta in Hrun.
  destruct (productionalizeRepository _ _ config p2) as [[thrown|prodResult] p3];
    rewrite Hrun; cbn [snd events]; rewrite !elem_of_app, !elem_of_cons; auto 10.
Qed.

(** X16: owner and repository are the first two parts of [full_name]
    split at ['/'].  For ['owner/repo'] the pass is called with [owner] and
    [repo]; further parts are dropped; and for a [full_name] without a
    ['/'] the repository argument is undefined. *)
Theorem run_owner_repo (p : P) (init : FoundryInitializer) (r1 : Run P)
    (result : RepositoryResult) (p2 : P) (config : ProductionalizationConfig)
    (owner : string) :
  getInitializer inputs parser (startRun p) = (inr init, r1) ->
  createRepository (input init) (remote r1) = (inr result, p2) ->
  productionalizationConfig (input init) = Some config ->
  occurs "/" owner = false ->
  let final :=
    (run inputs parser createRepository productionalizeRepository stringify exponential
       (startRun p)).2 in
  (full_name result = owner ->
   ProductionalizeRepository owner None config ∈ events final)
  /\ (forall repo, occurs "/" repo = false ->
        full_name result = owner +:+ "/" +:+ repo ->
        ProductionalizeRepository owner (Some repo) config ∈ events final)
  /\ (forall repo rest, occurs "/" repo = false ->
        full_name result = owner +:+ "/" +:+ repo +:+ "/" +:+ rest ->
        ProductionalizeRepository owner (Some repo) config ∈ events final).
Proof.
  intros Hinit Hcreate Hconfig Howner. cbv zeta.
  pose proof (run_calls_productionalize p _ _ _ _ _ Hinit Hcreate Hconfig) as Hcall.
  split; [|split].
  - intros Hname. rewrite Hname, (split_occurs_false _ _ Howner) in Hcall. exact Hcall.
  - intros repo Hrepo Hname. rewrite Hname in Hcall.
    change (owner +:+ "/" +:+ repo) with (owner +:+ String "/" repo) in Hcall.
    rewrite (split_app _ _ _ Howner), (split_occurs_false _ _ Hrepo) in Hcall.
    exact Hcall.
  - intros repo rest Hrepo Hname. rewrite Hname in Hcall.
    change (owner +:+ "/" +:+ repo +:+ "/" +:+ rest)
      with (owner +:+ String "/" (repo +:+ String "/" rest)) in Hcall.
    rewrite (split_app _ _ _ Howner), (split_app _ _ _ Hrepo) in Hcall.
    exact Hcall.
Qed.

End RunnerRecords.

Lemma run_missing_required_input_witness :
  (default "" ((∅ : gmap string string) !! "github-token") = ""
   \/ default "" ((∅ : gmap string string) !! "repository-name") = "")
  /\ Main.run ∅ simpleParser createsRepository productionalizesNothing (fun _ => "{}")
       noExponent (startRun 0) =
     (inr tt,
      {| Main.events :=
           [Main.SetFailed
              "Failed to initialize Foundry: Error: Input required and not supplied: github-token"];
         Main.remote := 0 |}).
Proof.
  assert (default "" ((∅ : gmap string string) !! "github-token") = ""
          \/ default "" ((∅ : gmap string string) !! "repository-name") = "")
    as Hmissing by (left; reflexivity).
  split; [exact Hmissing|].
  rewrite (run_missing_required_input ∅ simpleParser createsRepository
             productionalizesNothing (fun _ => "{}") noExponent 0 Hmissing).
  reflexivity.
Defined.

Lemma run_initialization_failure_witness :
  exists e r1,
    Main.getInitializer invalidPresetInputs simpleParser (startRun 0) = (inl e, r1)
    /\ Main.run invalidPresetInputs simpleParser createsRepository
         productionalizesNothing (fun _ => "{}") noExponent (startRun 0) =
       (inr tt, {| Main.events := Main.events r1 ++ [Main.SetFailed (message e)];
                   Main.remote := 0 |})
    /\ Forall (fun ev => Main.isParse ev = true) (Main.events r1).
Proof.
  destruct (Main.getInitializer invalidPresetInputs simpleParser (startRun 0))
    as [[e|init] r1] eqn:Hinit; [|vm_compute in Hinit; discriminate].
  exists e, r1. split; [reflexivity|].
  exact (run_initialization_failure invalidPresetInputs simpleParser createsRepository
           productionalizesNothing (fun _ => "{}") noExponent 0 e r1 Hinit).
Defined.


Lemma run_creation_failure_witness :
  exists init r1,
    Main.getInitializer (defaultsInputs "true") simpleParser (startRun 0) = (inr init, r1)
    /\ let outcome :=
         Main.run (defaultsInputs "true") simpleParser rejectsRepository
           productionalizesNothing (fun _ => "{}") noExponent (startRun 0) in
       outcome.1 = inr tt
       /\ Main.remote outcome.2 = S (Main.remote r1)
       /\ last (Main.events outcome.2) =
          Some (Main.SetFailed
                  ("Repository " +:+ repo_name (Main.input init) +:+ " already exists"))
       /\ Forall (fun ev => isOutput ev = false /\ Main.isProductionalize ev = false)
            (Main.events outcome.2).
Proof.
  destruct (Main.getInitializer (defaultsInputs "true") simpleParser (startRun 0))
    as [[e|init] r1] eqn:Hinit; [vm_compute in Hinit; discriminate|].
  exists init, r1. split; [reflexivity|].
  exact (run_creation_failure (defaultsInputs "true") simpleParser rejectsRepository
           productionalizesNothing (fun _ => "{}") noExponent 0 init r1 _ _ Hinit
           eq_refl).
Defined.


Lemma run_owner_repo_witness :
  exists init r1 config,
    Main.getInitializer (defaultsInputs "true") simpleParser (startRun 0) = (inr init, r1)
    /\ productionalizationConfig (Main.input init) = Some config
    /\ occurs "/" "owner" = false
    /\ occurs "/" "new-repo" = false
    /\ Main.ProductionalizeRepository "owner" (Some "new-repo") config
       ∈ Main.events
           (Main.run (defaultsInputs "true") simpleParser createsRepository
              productionalizesNothing (fun _ => "{}") noExponent (startRun 0)).2.
Proof.
  destruct (Main.getInitializer (defaultsInputs "true") simpleParser (startRun 0))
    as [[e|init] r1] eqn:Hinit; [vm_compute in Hinit; discriminate|].
  assert (productionalizationConfig (Main.input init) <> None
          /\ repo_name (Main.input init) = "new-repo") as [Hconfig Hname].
  { vm_compute in Hinit. by injection Hinit as <- _. }
  destruct (productionalizationConfig (Main.input init)) as [config|] eqn:Heq; [|done].
  exists init, r1, config. split; [reflexivity|]. split; [exact Heq|].
  split; [reflexivity|]. split; [reflexivity|].
  apply (proj1 (proj2 (run_owner_repo (defaultsInputs "true") simpleParser
                         createsRepository productionalizesNothing (fun _ => "{}")
                         noExponent 0 init r1 _ _ config "owner" Hinit eq_refl Heq
                         eq_refl))
           "new-repo" eq_refl).
  cbn [createsRepository full_name]. by rewrite Hname.
Defined.

Lemma getInitializer_repository_fields_witness :
  exists init r1,
    Main.getInitializer blankTokenInputs simpleParser (startRun 0) = (inr init, r1)
    /\ (exists raw, blankTokenInputs !! "github-token" = Some raw /\ raw <> ""
          /\ token (Main.input init) = Main.trim raw)
    /\ (exists raw, blankTokenInputs !! "repository-name" = Some raw /\ raw <> ""
          /\ repo_name (Main.input init) = Main.trim raw)
    /\ Main.octokitClient init = token (Main.input init)
    /\ (private (Main.input init) = true <->
        exists raw, blankTokenInputs !! "repository-private" = Some raw
                    /\ Main.trim raw = "true")
    /\ (autoInit (Main.input init) = true <->
        exists raw, blankTokenInputs !! "auto-init" = Some raw
                    /\ Main.trim raw = "true").
Proof.
  destruct (Main.getInitializer blankTokenInputs simpleParser (startRun 0))
    as [[e|init] r1] eqn:Hinit; [vm_compute in Hinit; discriminate|].
  exists init, r1. split; [reflexivity|].
  exact (getInitializer_repository_fields blankTokenInputs simpleParser
           (startRun 0) r1 init Hinit).
Defined.

Lemma getInitializer_config_fields_witness :
  exists init r1 config,
    Main.getInitializer blankTokenInputs simpleParser (startRun 0) = (inr init, r1)
    /\ productionalizationConfig (Main.input init) = Some config
    /\ cfg_teamPermissions config = None
    /\ cfg_topics config = None
    /\ cfg_environments config = None
    /\ cfg_environmentVariables config = None
    /\ cfg_secrets config = None
    /\ cfg_branchProtectionPreset config = Some strict
    /\ cfg_branchProtectionTargetBranch config = Some "master".
Proof.
  destruct (Main.getInitializer blankTokenInputs simpleParser (startRun 0))
    as [[e|init] r1] eqn:Hinit; [vm_compute in Hinit; discriminate|].
  assert (exists config, productionalizationConfig (Main.input init) = Some config)
    as (config & Hconfig).
  { vm_compute in Hinit. injection Hinit as <- _. eexists. reflexivity. }
  exists init, r1, config. split; [reflexivity|]. split; [exact Hconfig|].
  exact (getInitializer_config_fields blankTokenInputs simpleParser
           (startRun 0) r1 init config Hinit Hconfig).
Defined.
